(** * Veronica: the Robot dispatcher and the base Adapter

    A shallow embedding of [src/adapter.ts] (the base [Adapter] class and the
    [Robot] class that follows it in the same file), and the properties of
    the listener pipeline, the pattern normalisation of [respond] and the
    outbound routing of [send] and [reply].

    Strings are sequences of code units; the embedding keeps the code units
    0..255 ([ascii]), read as Latin-1. *)

From Stdlib Require Import Ascii String List Bool Arith Lia.
From stdpp Require Import base option list gmap strings.

(** ** JavaScript primitives used by the source *)

Module JS.

(** [String.prototype.split] with a one-character separator: the result
    always has one piece more than there are separators. *)
Fixpoint split (sep : ascii) (s : string) : list string :=
  match s with
  | EmptyString => [EmptyString]
  | String c s' =>
      if Ascii.eqb c sep then EmptyString :: split sep s'
      else match split sep s' with
           | [] => [String c EmptyString]
           | piece :: pieces => String c piece :: pieces
           end
  end.

(** [Array.prototype.join]. *)
Fixpoint join (sep : string) (l : list string) : string :=
  match l with
  | [] => EmptyString
  | [piece] => piece
  | piece :: rest => piece +:+ sep +:+ join sep rest
  end.

(** [Array.prototype.shift], as far as the array is concerned. *)
Definition shift {X} (l : list X) : list X := tail l.

(** [Array.prototype.pop]: the shortened array and the element removed
    ([None] is [undefined], on an empty array). *)
Definition pop {X} (l : list X) : list X * option X :=
  (removelast l, last l).

(** White space as [\s] sees it (the code units below 256). *)
Definition isWhiteSpace (c : ascii) : bool :=
  let n := nat_of_ascii c in
  (9 <=? n) && (n <=? 13) || (n =? 32) || (n =? 160).

Definition isUpper (c : ascii) : bool :=
  let n := nat_of_ascii c in
  (65 <=? n) && (n <=? 90) || (192 <=? n) && (n <=? 222) && negb (n =? 215).

Definition isLower (c : ascii) : bool :=
  let n := nat_of_ascii c in
  (97 <=? n) && (n <=? 122) || (224 <=? n) && (n <=? 254) && negb (n =? 247).

Definition lowerChar (c : ascii) : ascii :=
  if isUpper c then ascii_of_nat (nat_of_ascii c + 32) else c.

Definition upperChar (c : ascii) : ascii :=
  if isLower c then ascii_of_nat (nat_of_ascii c - 32) else c.

(** [String.prototype.toLowerCase]. *)
Fixpoint toLowerCase (s : string) : string :=
  match s with
  | EmptyString => EmptyString
  | String c s' => String (lowerChar c) (toLowerCase s')
  end.

(** Truthiness of a string, and of an optional string ([undefined]). *)
Definition truthy (s : string) : bool :=
  match s with EmptyString => false | _ => true end.

Definition truthy_opt (o : option string) : bool :=
  match o with Some s => truthy s | None => false end.

(** A [RegExp] object: its [source] and its [flags]. [mkRegExp p f] is
    also what [new RegExp(p, f)] builds, when the engine accepts [p] and
    [f]. *)
Record RegExp := mkRegExp { source : string; flags : string }.

(** The flags a [RegExp] object can carry. *)
Definition validFlags (fl : string) : bool :=
  forallb (fun c => existsb (Ascii.eqb c) (list_ascii_of_string "dgimsuvy"))
    (list_ascii_of_string fl).

(** [RegExp.prototype.toString]. *)
Definition RegExp_toString (r : RegExp) : string :=
  "/" +:+ source r +:+ "/" +:+ flags r.

(** [Array.prototype.toString] on an array of strings. *)
Definition Array_toString (l : list string) : string := join "," l.

(** The property names every plain object inherits from
    [Object.prototype]: [o[k]] is defined for them whatever [o] holds. *)
Definition objectPrototypeKeys : list string :=
  [ "constructor"; "__defineGetter__"; "__defineSetter__"; "hasOwnProperty";
    "__lookupGetter__"; "__lookupSetter__"; "isPrototypeOf";
    "propertyIsEnumerable"; "toString"; "valueOf"; "__proto__";
    "toLocaleString" ].

Inductive Error :=
| Err (message : string)
| TypeError (message : string)
| SyntaxError (message : string).

(** [Error.prototype.toString]. *)
Definition Error_toString (e : Error) : string :=
  match e with
  | Err message => "Error: " +:+ message
  | TypeError message => "TypeError: " +:+ message
  | SyntaxError message => "SyntaxError: " +:+ message
  end.

End JS.


(** ** Values that cross the interfaces *)

(** The values, besides [null] and [undefined], that [!x] is true of: the
    empty string, [0], [-0], [0n], [NaN] and [false]. *)
Inductive Falsy :=
| FEmptyString
| FZero
| FMinusZero
| FZeroBigInt
| FNaN
| FFalse.

(** A reference that may be [null] or [undefined]. Nothing at run time
    holds a caller to the declared type: [falsy] is one of the other
    values that a test [!x] turns away, and [Obj] a value that passes it. *)
Inductive Nullable (X : Type) :=
| null
| undefined
| falsy (v : Falsy)
| Obj (x : X).
Arguments null {X}.
Arguments undefined {X}.
Arguments falsy {X} v.
Arguments Obj {X} x.

(** A loosely typed argument ([...strings] has no declared element type). *)
#[warnings="-register-all"]
Inductive Value :=
| VString (s : string)
| VArray (items : list Value).

(** [messages: string[] | string]. *)
Inductive Messages :=
| Single (s : string)
| Array (items : list string).

(** [regex: RegExp | string]. *)
Inductive Pattern :=
| PString (s : string)
| PRegExp (r : JS.RegExp).

(** Template literals and the logger coerce objects to strings. *)
Class ToString (X : Type) := toString : X -> string.

#[export] Instance Messages_toString : ToString Messages :=
  fun m => match m with
           | Single s => s
           | Array items => JS.Array_toString items
           end.

#[export] Instance Pattern_toString : ToString Pattern :=
  fun p => match p with
           | PString s => s
           | PRegExp r => JS.RegExp_toString r
           end.

(** Modelled from the spec: [Envelope] ([./envelope] is not among the
    sources): "{ user: UserRef, room: RoomRef, adapterName: string }". The
    source reads [envelope.user], [envelope.room], [envelope.room.name] and
    [envelope.adapterName]. *)
Record Envelope (U R : Type) := mkEnvelope {
  user : U;
  room : R;
  adapterName : string
}.
Arguments mkEnvelope {U R}.
Arguments user {U R}.
Arguments room {U R}.
Arguments adapterName {U R}.

(** A room has a [name]. *)
Class Named (R : Type) := name_of : R -> string.

(** Modelled from the spec: [Message] and [TextMessage] ([./message] is not
    among the sources): "{ text: string, user: UserRef, room: RoomRef } (as
    TextMessage variant) or other payload variants". *)
Record TextMessage (U R : Type) := mkTextMessage {
  text : string;
  text_user : U;
  text_room : R
}.
Arguments mkTextMessage {U R}.
Arguments text {U R}.
Arguments text_user {U R}.
Arguments text_room {U R}.

Inductive Message (U R : Type) :=
| IsText (m : TextMessage U R)
| IsOther (from : U) (within : R).
Arguments IsText {U R}.
Arguments IsOther {U R}.

(** ** The logger *)

Inductive LogLevel := debug | info | warn | error.

Record LogEntry := mkLog {
  level : LogLevel;
  line : string;
  meta : list string
}.

(** ** State, results and the two effect types *)

(** The fields of a [Robot] that the modelled methods read or write;
    [world] stands for everything else a callback or an adapter can reach
    (brain, database, network). *)
Record State (L A W : Type) := mkState {
  name : string;
  pluginListeners : list L;
  adapters : gmap string A;
  logger : list LogEntry;
  world : W
}.
Arguments mkState {L A W}.
Arguments name {L A W}.
Arguments pluginListeners {L A W}.
Arguments adapters {L A W}.
Arguments logger {L A W}.
Arguments world {L A W}.

(** The state after the logger has written [entries]. *)
Definition logged {L A W} (s : State L A W) (entries : list LogEntry)
  : State L A W :=
  mkState (name s) (pluginListeners s) (adapters s) (logger s ++ entries)
    (world s).

(** The state after [listener] has been pushed onto the array. *)
Definition registered {L A W} (s : State L A W) (listener : L)
  : State L A W :=
  mkState (name s) (pluginListeners s ++ [listener]) (adapters s) (logger s)
    (world s).

Inductive Result (X : Type) :=
| Return (x : X)
| Throw (e : JS.Error).
Arguments Return {X}.
Arguments Throw {X}.

(** Code of a collaborator (a listener, a plugin callback, an adapter
    subclass): it may change the state and may throw. *)
Definition T (S X : Type) : Type := S -> Result X * S.

(** Code of the modelled classes: the same, and the calls it makes to its
    collaborators are recorded, in order. *)
Definition M (S E X : Type) : Type := S -> Result X * S * list E.

Definition ret {S E X} (x : X) : M S E X := fun s => (Return x, s, []).

Definition throw {S E X} (e : JS.Error) : M S E X := fun s => (Throw e, s, []).

Definition bind {S E X Y} (m : M S E X) (f : X -> M S E Y) : M S E Y :=
  fun s =>
    match m s with
    | (Return x, s', tr) =>
        match f x s' with
        | (r, s'', tr') => (r, s'', tr ++ tr')
        end
    | (Throw e, s', tr) => (Throw e, s', tr)
    end.

(** A call to a collaborator, recorded as [ev]. *)
Definition invoke {S E X} (ev : E) (f : T S X) : M S E X :=
  fun s => match f s with (r, s') => (r, s', [ev]) end.

(** Running modelled code from inside a collaborator. *)
Definition untraced {S E X} (m : M S E X) : T S X :=
  fun s => match m s with (r, s', _) => (r, s') end.

Declare Scope robot_scope.
Delimit Scope robot_scope with robot.
Notation "x <- m ;; k" := (bind m (fun x => k))
  (at level 100, m at next level, right associativity) : robot_scope.
Notation "m ;;; k" := (bind m (fun _ => k))
  (at level 100, right associativity) : robot_scope.

(** Modelled from the spec: [Response] ([./response] is not among the
    sources): "ephemeral object bound to one (Message, matched Listener)
    pair; carries enough context (envelope, matched groups) to call back
    into send/reply", built from "the match groups, the Envelope, and the
    firing adapter". *)
Record Response (A U R Msg : Type) := mkResponse {
  res_message : Msg;
  res_match : list string;
  res_envelope : Envelope U R;
  res_adapter : A
}.
Arguments mkResponse {A U R Msg}.

(** [interface ResponseCallback { (response: Response): void }]. *)
Definition ResponseCallback (L A W U R Msg : Type) : Type :=
  Response A U R Msg -> T (State L A W) unit.

(** The calls the modelled methods make to listeners and adapters. *)
Inductive Event (L A W U R Msg : Type) :=
| ListenerCall (listener : L) (msg : Msg) (adapter : A)
    (callback : Nullable (ResponseCallback L A W U R Msg))
| AdapterSend (adapter : A) (envelope : Envelope U R) (strings : list Value)
| AdapterReply (adapter : A) (envelope : Envelope U R) (strings : list Value).
Arguments ListenerCall {L A W U R Msg}.
Arguments AdapterSend {L A W U R Msg}.
Arguments AdapterReply {L A W U R Msg}.

(** The outbound methods of an adapter object, as its class (the base class
    or a subclass) defines them; each receives [this]. *)
Record AdapterClass (L A W U R : Type) := mkAdapterClass {
  send_of : A -> Envelope U R -> list Value -> T (State L A W) unit;
  reply_of : A -> Envelope U R -> list Value -> T (State L A W) unit;
  emote_of : A -> Envelope U R -> list Value -> T (State L A W) unit;
  topic_of : A -> Envelope U R -> list Value -> T (State L A W) unit;
  play_of : A -> Envelope U R -> list Value -> T (State L A W) unit
}.
Arguments mkAdapterClass {L A W U R}.
Arguments send_of {L A W U R}.
Arguments reply_of {L A W U R}.
Arguments emote_of {L A W U R}.
Arguments topic_of {L A W U R}.
Arguments play_of {L A W U R}.

(** [o[k]] on the plain object [this.adapters = {}]: an own property, a
    member inherited from [Object.prototype] (truthy, and not an adapter),
    or [undefined]. *)
Inductive Property (A : Type) :=
| Own (a : A)
| Inherited
| Missing.
Arguments Own {A}.
Arguments Inherited {A}.
Arguments Missing {A}.

Definition getProperty {A} (o : gmap string A) (k : string) : Property A :=
  match o !! k with
  | Some a => Own a
  | None =>
      if bool_decide (k ∈ JS.objectPrototypeKeys) then Inherited else Missing
  end.

(** ** The Robot *)

Module Robot.
Section Methods.
Context {L A W O U R Msg : Type}.
Context `{!ToString U, !ToString R, !Named R}.

Local Abbreviation St := (State L A W).
Local Abbreviation Ev := (Event L A W U R Msg).
Local Abbreviation Code := (M St Ev).
Local Abbreviation Callback := (ResponseCallback L A W U R Msg).

Local Open Scope robot_scope.

(** [Msg]: the values that can be passed as the message and are not
    falsy. No method of the robot looks inside one; the declared parameter
    type, [Message], and the cast [message as TextMessage] leave no trace at
    run time. *)

(** Collaborators: [Listener.call] and the [TextListener] constructor
    ([./listener] is not among the sources), and the class of each adapter
    object. *)
Variable Listener_call :
  L -> Msg -> A -> Nullable Callback -> T St unit.
Variable TextListener_new : Pattern -> O -> Callback -> L.
Variable classOf : A -> AdapterClass L A W U R.

(** The engine: whether [new RegExp(pattern, flags)] accepts its
    arguments; it throws a [SyntaxError] when it does not. *)
Variable RegExp_accepts : string -> string -> bool.

Definition get : Code St := fun s => (Return s, s, []).

(** [this.logger.<level>(line, ...meta)]. *)
Definition log (lvl : LogLevel) (line : string) (meta : list string)
  : Code unit :=
  fun s => (Return tt, logged s [mkLog lvl line meta], []).

(** [this.pluginListeners.push(listener)]. *)
Definition push (listener : L) : Code unit :=
  fun s => (Return tt, registered s listener, []).

(** The character class [[-[\]{}()*+?.,\\^$|#\s]]. *)
Definition needsEscape (c : ascii) : bool :=
  existsb (Ascii.eqb c) (list_ascii_of_string "-[]{}()*+?.,\^$|#")
  || JS.isWhiteSpace c.

(** [this.name.replace(/[-[\]{}()*+?.,\\^$|#\s]/g, "\\$&")]. *)
Fixpoint escapeName (s : string) : string :=
  match s with
  | EmptyString => EmptyString
  | String c s' =>
      if needsEscape c then String "\" (String c (escapeName s'))
      else String c (escapeName s')
  end.

(** [re[0] && re[0][0] === "^"]. *)
Definition anchored (re : list string) : bool :=
  match head re with
  | Some (String c _) => Ascii.eqb c "^"
  | _ => false
  end.

(** [new RegExp(pattern, flags)]. *)
Definition RegExp_new (pattern flags : string) : Code JS.RegExp :=
  if RegExp_accepts pattern flags then ret (JS.mkRegExp pattern flags)
  else throw (JS.SyntaxError
                ("Invalid regular expression: /" +:+ pattern +:+ "/" +:+ flags)).

Definition respondPattern (regex : Pattern) : Code Pattern :=
  s <- get ;;
  let name := escapeName (name s) in
  match regex with
  | PString str => ret (PString ("{:BOT_NAME} " +:+ str))
  | PRegExp r =>
      let re := JS.split "/" (JS.RegExp_toString r) in
      let re := JS.shift re in
      let '(re, modifiers) := JS.pop re in
      let modifiers :=
        if negb (JS.truthy_opt modifiers) then "i"
        else default EmptyString modifiers in
      (if anchored re then
         log warn
           "Anchors don't work well with respond, perhaps you want to use 'hear'"
           [] ;;;
         log warn
           ("The regex in question was " +:+ JS.RegExp_toString r) []
       else ret tt) ;;;
      let pattern := JS.join "/" re in
      compiled <- RegExp_new
                    ("^\s*[@]*" +:+ JS.toLowerCase name +:+ "[:,]?\s*(?:"
                     +:+ pattern +:+ ")")
                    modifiers ;;
      ret (PRegExp compiled)
  end.

(** The string that goes to the constructor, for a bot name and the
    source of a pattern: [^\s*[@]*<botname>[:,]?\s*(?:<pattern>)], the bot
    name escaped and in lower case. *)
Definition wrapped (botname pattern : string) : string :=
  "^\s*[@]*" +:+ JS.toLowerCase (escapeName botname) +:+ "[:,]?\s*(?:"
  +:+ pattern +:+ ")".

(** A pattern source that begins with the anchor. *)
Definition beginsWithAnchor (pattern : string) : bool :=
  match pattern with
  | String c _ => Ascii.eqb c "^"
  | EmptyString => false
  end.

(** The two warnings of an anchored pattern. *)
Definition anchorWarnings (r : JS.RegExp) : list LogEntry :=
  if beginsWithAnchor (JS.source r) then
    [ mkLog warn
        "Anchors don't work well with respond, perhaps you want to use 'hear'"
        [];
      mkLog warn ("The regex in question was " +:+ JS.RegExp_toString r) [] ]
  else [].

(** The flags that go to the constructor. *)
Definition modifiersFor (r : JS.RegExp) : string :=
  if JS.truthy (JS.flags r) then JS.flags r else "i".

Definition hear (regex : Pattern) (options : O) (callback : Callback)
  : Code unit :=
  log debug "[Robot] creating hear listener for regex" [toString regex] ;;;
  let listener := TextListener_new regex options callback in
  push listener.

Definition respond (regex : Pattern) (options : O) (callback : Callback)
  : Code unit :=
  log debug "[Robot] creating respond listener for regex" [toString regex] ;;;
  pattern <- respondPattern regex ;;
  let listener := TextListener_new pattern options callback in
  push listener.

(** [if (!Array.isArray(messages)) messages = [messages]]. *)
Definition asArray (messages : Messages) : list string :=
  match messages with
  | Single s => [s]
  | Array items => items
  end.

(** The line [reply] writes first: a template literal over the envelope
    and the messages. *)
Definition replyLine (envelope : Envelope U R) (messages : Messages) : string :=
  "[Robot] Attempting to reply to " +:+ toString (user envelope)
  +:+ " in #" +:+ name_of (room envelope)
  +:+ ", message: " +:+ toString messages.

(** The line [send] writes first. *)
Definition sendLine (envelope : Envelope U R) (messages : Messages) : string :=
  "[Robot] Sending in " +:+ toString (room envelope)
  +:+ " via " +:+ adapterName envelope
  +:+ ": " +:+ toString messages.

Definition reply (envelope : Envelope U R) (messages : Messages)
  : Code unit :=
  log debug (replyLine envelope messages) [] ;;;
  let messages := asArray messages in
  s <- get ;;
  match getProperty (adapters s) (adapterName envelope) with
  | Own adapter =>
      let strings := [VArray (map VString messages)] in
      invoke (AdapterReply adapter envelope strings)
        (reply_of (classOf adapter) adapter envelope strings)
  | Inherited =>
      throw (JS.TypeError
               "this.adapters[envelope.adapterName].reply is not a function")
  | Missing =>
      throw (JS.TypeError "Cannot read property 'reply' of undefined")
  end.

Definition send (envelope : Envelope U R) (messages : Messages)
  : Code unit :=
  log debug (sendLine envelope messages) [] ;;;
  let messages := asArray messages in
  s <- get ;;
  match getProperty (adapters s) (adapterName envelope) with
  | Missing =>
      throw (JS.Err
               ("[Robot] Invalid adapter name: " +:+ adapterName envelope))
  | Inherited => throw (JS.TypeError "adapter.send is not a function")
  | Own adapter =>
      let strings := [VArray (map VString messages)] in
      invoke (AdapterSend adapter envelope strings)
        (send_of (classOf adapter) adapter envelope strings)
  end.

(** [for (let listener of this.pluginListeners) body(listener)]: the array
    iterator reads the array as it is at each step, from index [i] on.
    [None]: the loop has not finished within [fuel] steps. *)
Fixpoint forOfListeners (fuel i : nat) (body : L -> Code unit) (s : St)
  : option (Result unit * St * list Ev) :=
  match fuel with
  | 0 => None
  | S fuel' =>
      match pluginListeners s !! i with
      | None => Some (Return tt, s, [])
      | Some listener =>
          match body listener s with
          | (Return _, s', tr) =>
              match forOfListeners fuel' (S i) body s' with
              | Some (r, s'', tr') => Some (r, s'', tr ++ tr')
              | None => None
              end
          | (Throw e, s', tr) => Some (Throw e, s', tr)
          end
      end
  end.

Definition receive (fuel : nat) (message : Nullable Msg)
  (adapter : A) (callback : Nullable Callback) (s : St)
  : option (Result unit * St * list Ev) :=
  match message with
  | Obj msg =>
      forOfListeners fuel 0
        (fun listener =>
           invoke (ListenerCall listener msg adapter callback)
             (Listener_call listener msg adapter callback))
        s
  | _ => Some (log info "[Robot] blank message error" [] s)
  end.

End Methods.
End Robot.

(** ** The base Adapter *)

Module Adapter.
Section Methods.
Context {L A W U R Msg : Type}.

Local Abbreviation St := (State L A W).
Local Abbreviation Ev := (Event L A W U R Msg).
Local Abbreviation Code := (M St Ev).
Local Abbreviation Callback := (ResponseCallback L A W U R Msg).

Variable Listener_call :
  L -> Msg -> A -> Nullable Callback -> T St unit.
Variable classOf : A -> AdapterClass L A W U R.

(** [send(envelope?: Envelope, ...strings) {}]; every call in the source
    passes an envelope. *)
Definition send (this : A) (envelope : Envelope U R) (strings : list Value)
  : Code unit := ret tt.

(** [this.send(envelope, strings)]: the method is looked up on the object,
    so a subclass that overrides [send] is reached; the rest parameter is
    passed on as one array. *)
Definition emote (this : A) (envelope : Envelope U R) (strings : list Value)
  : Code unit :=
  invoke (AdapterSend this envelope [VArray strings])
    (send_of (classOf this) this envelope [VArray strings]).

Definition reply (this : A) (envelope : Envelope U R) (strings : list Value)
  : Code unit := ret tt.

Definition topic (this : A) (envelope : Envelope U R) (strings : list Value)
  : Code unit := ret tt.

Definition play (this : A) (envelope : Envelope U R) (strings : list Value)
  : Code unit := ret tt.

Definition run (this : A) : Code unit := ret tt.

Definition close (this : A) : Code unit := ret tt.

(** [this.robot.receive(message, this, null)]. *)
Definition receive (fuel : nat) (this : A) (message : Nullable Msg)
  (s : St) : option (Result unit * St * list Ev) :=
  Robot.receive Listener_call fuel message this null s.

(** The class [Adapter] itself, as a method table. *)
Definition base : AdapterClass L A W U R :=
  mkAdapterClass
    (fun this envelope strings => untraced (send this envelope strings))
    (fun this envelope strings => untraced (reply this envelope strings))
    (fun this envelope strings => untraced (emote this envelope strings))
    (fun this envelope strings => untraced (topic this envelope strings))
    (fun this envelope strings => untraced (play this envelope strings)).

End Methods.
End Adapter.

(** ** What a compiled pattern matches

    [new RegExp(source, flags)] and [RegExp.prototype.test] for the part of
    the pattern language that [respondPattern] produces around plain
    patterns: characters, escapes, character classes, groups, alternation,
    the quantifiers [*], [+], [?] and the assertions [^] and [$]. A pattern
    outside this part is not given a meaning ([None]). *)

Module Regex.

Inductive ClassItem :=
| COne (c : ascii)
| CRange (lo hi : ascii)
| CSpace (positive : bool)
| CDigit (positive : bool)
| CWord (positive : bool).

Inductive Node :=
| Empty
| Char (c : ascii)
| Dot
| Class (negated : bool) (items : list ClassItem)
| AssertStart
| AssertEnd
| Seq (a b : Node)
| Alt (a b : Node)
| Star (a : Node)
| Group (a : Node).

Inductive Token :=
| TAtom (n : Node)
| TOpen
| TClose
| TBar
| TStar
| TPlus
| TQuest
| TCaret
| TDollar.

Definition isDigit (c : ascii) : bool :=
  let n := nat_of_ascii c in (48 <=? n) && (n <=? 57).

Definition isAsciiLetter (c : ascii) : bool :=
  let n := nat_of_ascii c in
  (65 <=? n) && (n <=? 90) || (97 <=? n) && (n <=? 122).

Definition isWordChar (c : ascii) : bool :=
  isAsciiLetter c || isDigit c || Ascii.eqb c "_".

Definition isLineTerminator (c : ascii) : bool :=
  let n := nat_of_ascii c in (n =? 10) || (n =? 13).

(** The character after a backslash, outside or inside a class. *)
Definition escape (inClass : bool) (c : ascii) : option ClassItem :=
  if Ascii.eqb c "s" then Some (CSpace true)
  else if Ascii.eqb c "S" then Some (CSpace false)
  else if Ascii.eqb c "d" then Some (CDigit true)
  else if Ascii.eqb c "D" then Some (CDigit false)
  else if Ascii.eqb c "w" then Some (CWord true)
  else if Ascii.eqb c "W" then Some (CWord false)
  else if Ascii.eqb c "t" then Some (COne (ascii_of_nat 9))
  else if Ascii.eqb c "n" then Some (COne (ascii_of_nat 10))
  else if Ascii.eqb c "v" then Some (COne (ascii_of_nat 11))
  else if Ascii.eqb c "f" then Some (COne (ascii_of_nat 12))
  else if Ascii.eqb c "r" then Some (COne (ascii_of_nat 13))
  else if inClass && Ascii.eqb c "b" then Some (COne (ascii_of_nat 8))
  else if isAsciiLetter c || isDigit c then None
  else Some (COne c).

(** One member of a class: a character or an escape. *)
Definition classAtom (s : list ascii) : option (ClassItem * list ascii) :=
  match s with
  | [] => None
  | "\"%char :: c :: rest =>
      match escape true c with
      | Some i => Some (i, rest)
      | None => None
      end
  | "\"%char :: [] => None
  | c :: rest => Some (COne c, rest)
  end.

(** The items of a class, up to the closing bracket. A dash between two
    characters makes a range; a dash before the bracket is a character. *)
Fixpoint classItems (fuel : nat) (s : list ascii)
  : option (list ClassItem * list ascii) :=
  match fuel with
  | 0 => None
  | S fuel' =>
      let more (i : ClassItem) (rest : list ascii) :=
        match classItems fuel' rest with
        | Some (items, rest') => Some (i :: items, rest')
        | None => None
        end in
      match s with
      | "]"%char :: rest => Some ([], rest)
      | _ =>
          match classAtom s with
          | None => None
          | Some (lo, "-"%char :: "]"%char :: rest) =>
              more lo ("-"%char :: "]"%char :: rest)
          | Some (lo, "-"%char :: rest) =>
              match lo, classAtom rest with
              | COne l, Some (COne h, rest') =>
                  if nat_of_ascii l <=? nat_of_ascii h
                  then more (CRange l h) rest'
                  else None
              | _, _ => None
              end
          | Some (i, rest) => more i rest
          end
      end
  end.

Definition itemNode (i : ClassItem) : Node :=
  match i with
  | COne c => Char c
  | _ => Class false [i]
  end.

(** The tokens of a pattern. *)
Fixpoint tokens (fuel : nat) (s : list ascii) : option (list Token) :=
  match fuel with
  | 0 => None
  | S fuel' =>
      let more (t : Token) (rest : list ascii) :=
        match tokens fuel' rest with
        | Some ts => Some (t :: ts)
        | None => None
        end in
      match s with
      | [] => Some []
      | "\"%char :: c :: rest =>
          match escape false c with
          | Some i => more (TAtom (itemNode i)) rest
          | None => None
          end
      | "\"%char :: [] => None
      | "["%char :: "^"%char :: rest =>
          match classItems (S (length rest)) rest with
          | Some (items, rest') => more (TAtom (Class true items)) rest'
          | None => None
          end
      | "["%char :: rest =>
          match classItems (S (length rest)) rest with
          | Some (items, rest') => more (TAtom (Class false items)) rest'
          | None => None
          end
      | "("%char :: "?"%char :: ":"%char :: rest => more TOpen rest
      | "("%char :: "?"%char :: _ => None
      | "("%char :: rest => more TOpen rest
      | ")"%char :: rest => more TClose rest
      | "|"%char :: rest => more TBar rest
      | "*"%char :: rest => more TStar rest
      | "+"%char :: rest => more TPlus rest
      | "?"%char :: rest => more TQuest rest
      | "^"%char :: rest => more TCaret rest
      | "$"%char :: rest => more TDollar rest
      | "."%char :: rest => more (TAtom Dot) rest
      | "{"%char :: _ => None
      | "}"%char :: _ => None
      | "]"%char :: _ => None
      | c :: rest => more (TAtom (Char c)) rest
      end
  end.

(** An atom with the quantifier that follows it, if any; a quantifier may
    carry the lazy mark, which does not change what [test] answers. *)
Definition quantified (n : Node) (ts : list Token) : option (Node * list Token) :=
  let lazy (q : Node) (ts' : list Token) :=
    match ts' with
    | TQuest :: ts'' => (q, ts'')
    | _ => (q, ts')
    end in
  let '(q, ts') :=
    match ts with
    | TStar :: ts' => lazy (Star n) ts'
    | TPlus :: ts' => lazy (Seq n (Star n)) ts'
    | TQuest :: ts' => lazy (Alt n Empty) ts'
    | _ => (n, ts)
    end in
  match ts' with
  | (TStar | TPlus | TQuest) :: _ => None
  | _ => Some (q, ts')
  end.

(** Disjunction, alternative and term of the pattern grammar. *)
Fixpoint disjunction (fuel : nat) (ts : list Token) : option (Node * list Token) :=
  match fuel with
  | 0 => None
  | S fuel' =>
      match alternative fuel' ts with
      | Some (a, TBar :: ts') =>
          match disjunction fuel' ts' with
          | Some (b, ts'') => Some (Alt a b, ts'')
          | None => None
          end
      | r => r
      end
  end
with alternative (fuel : nat) (ts : list Token) : option (Node * list Token) :=
  match fuel with
  | 0 => None
  | S fuel' =>
      match ts with
      | [] | TBar :: _ | TClose :: _ => Some (Empty, ts)
      | _ =>
          match term fuel' ts with
          | Some (a, ts') =>
              match alternative fuel' ts' with
              | Some (b, ts'') => Some (Seq a b, ts'')
              | None => None
              end
          | None => None
          end
      end
  end
with term (fuel : nat) (ts : list Token) : option (Node * list Token) :=
  match fuel with
  | 0 => None
  | S fuel' =>
      match ts with
      | TAtom n :: ts' => quantified n ts'
      | TOpen :: ts' =>
          match disjunction fuel' ts' with
          | Some (a, TClose :: ts'') => quantified (Group a) ts''
          | _ => None
          end
      | TCaret :: (TStar | TPlus | TQuest) :: _ => None
      | TDollar :: (TStar | TPlus | TQuest) :: _ => None
      | TCaret :: ts' => Some (AssertStart, ts')
      | TDollar :: ts' => Some (AssertEnd, ts')
      | _ => None
      end
  end.

(** [new RegExp(source)]: the whole source is one disjunction. *)
Definition parse (source : string) : option Node :=
  let s := list_ascii_of_string source in
  match tokens (S (length s)) s with
  | Some ts =>
      match disjunction (3 * S (length ts)) ts with
      | Some (n, []) => Some n
      | _ => None
      end
  | None => None
  end.

Record Flags := mkFlags {
  ignoreCase : bool;
  multiline : bool;
  dotAll : bool
}.

(** The flags given a meaning: [i], [m], [s], each at most once. *)
Fixpoint parseFlags (s : string) (acc : Flags) : option Flags :=
  match s with
  | EmptyString => Some acc
  | String c s' =>
      if Ascii.eqb c "i" then
        if ignoreCase acc then None
        else parseFlags s' (mkFlags true (multiline acc) (dotAll acc))
      else if Ascii.eqb c "m" then
        if multiline acc then None
        else parseFlags s' (mkFlags (ignoreCase acc) true (dotAll acc))
      else if Ascii.eqb c "s" then
        if dotAll acc then None
        else parseFlags s' (mkFlags (ignoreCase acc) (multiline acc) true)
      else None
  end.

(** Canonicalize: with [i], characters are compared by their upper case. *)
Definition canon (fl : Flags) (c : ascii) : ascii :=
  if ignoreCase fl then JS.upperChar c else c.

Definition sameChar (fl : Flags) (c x : ascii) : bool :=
  Ascii.eqb (canon fl c) (canon fl x).

Definition inRange (fl : Flags) (lo hi x : ascii) : bool :=
  let within (y : ascii) :=
    (nat_of_ascii lo <=? nat_of_ascii y) && (nat_of_ascii y <=? nat_of_ascii hi) in
  within x || ignoreCase fl && (within (JS.upperChar x) || within (JS.lowerChar x)).

Definition inItem (fl : Flags) (x : ascii) (i : ClassItem) : bool :=
  match i with
  | COne c => sameChar fl c x
  | CRange lo hi => inRange fl lo hi x
  | CSpace positive => Bool.eqb positive (JS.isWhiteSpace x)
  | CDigit positive => Bool.eqb positive (isDigit x)
  | CWord positive => Bool.eqb positive (isWordChar x)
  end.

Definition inClass (fl : Flags) (negated : bool) (items : list ClassItem)
  (x : ascii) : bool :=
  xorb negated (existsb (inItem fl x) items).

(** A position in the input: the character before it, if any, and the
    characters from it on. A continuation decides the rest of the match. *)
Definition Cont : Type := option ascii -> list ascii -> bool.

(** The matcher of a node: does the node, then the continuation, succeed
    from this position. A repetition stops when an iteration consumes
    nothing. *)
Fixpoint matcher (fl : Flags) (n : Node) (prev : option ascii)
  (rest : list ascii) (k : Cont) {struct n} : bool :=
  let one (ok : ascii -> bool) :=
    match rest with
    | x :: rest' => ok x && k (Some x) rest'
    | [] => false
    end in
  match n with
  | Empty => k prev rest
  | Char c => one (sameChar fl c)
  | Dot => one (fun x => dotAll fl || negb (isLineTerminator x))
  | Class negated items => one (inClass fl negated items)
  | AssertStart =>
      match prev with
      | None => k prev rest
      | Some p => multiline fl && isLineTerminator p && k prev rest
      end
  | AssertEnd =>
      match rest with
      | [] => k prev rest
      | x :: _ => multiline fl && isLineTerminator x && k prev rest
      end
  | Seq a b => matcher fl a prev rest (fun p r => matcher fl b p r k)
  | Alt a b => matcher fl a prev rest k || matcher fl b prev rest k
  | Group a => matcher fl a prev rest k
  | Star a =>
      (fix loop (budget : nat) (prev : option ascii) (rest : list ascii) : bool :=
         match budget with
         | 0 => k prev rest
         | S budget' =>
             matcher fl a prev rest
               (fun p r => (length r <? length rest) && loop budget' p r)
             || k prev rest
         end) (length rest) prev rest
  end.

(** A match may start at any index of the input. *)
Fixpoint search (fl : Flags) (n : Node) (prev : option ascii)
  (rest : list ascii) : bool :=
  matcher fl n prev rest (fun _ _ => true)
  || match rest with
     | [] => false
     | x :: rest' => search fl n (Some x) rest'
     end.

(** [regex.test(text)]. *)
Definition test (r : JS.RegExp) (text : string) : option bool :=
  match parseFlags (JS.flags r) (mkFlags false false false), parse (JS.source r) with
  | Some fl, Some n => Some (search fl n None (list_ascii_of_string text))
  | _, _ => None
  end.

(** Where a match can stand after a node, for a match that may or may not
    have begun at the start of the input ([atStart]); [None]: the node
    cannot match there at all. *)
Fixpoint after (fl : Flags) (n : Node) (atStart : bool) : option bool :=
  match n with
  | Empty => Some atStart
  | Char _ | Dot | Class _ _ => Some false
  | AssertStart =>
      if multiline fl then Some atStart
      else if atStart then Some true else None
  | AssertEnd => Some atStart
  | Seq a b =>
      match after fl a atStart with
      | Some atStart' => after fl b atStart'
      | None => None
      end
  | Alt a b =>
      match after fl a atStart, after fl b atStart with
      | Some x, Some y => Some (x || y)
      | Some x, None => Some x
      | None, r => r
      end
  | Group a => after fl a atStart
  | Star a => Some atStart
  end.


End Regex.

(** ** Listeners *)

Module Listener.
Section Call.
Context {L A W U R : Type}.

Local Abbreviation St := (State L A W).
Local Abbreviation Callback := (ResponseCallback L A W U R (Message U R)).

(** What a listener object holds (its matcher, a compiled pattern or a
    predicate, and its callback), how it is named in the log, and the name
    an adapter goes by. *)
Variable matcherOf : L -> Message U R -> option (list string).
Variable callbackOf : L -> Callback.
Variable describe : L -> string.
Variable adapterNameOf : A -> string.

Definition envelopeFor (msg : Message U R) (adapter : A) : Envelope U R :=
  match msg with
  | IsText m => mkEnvelope (text_user m) (text_room m) (adapterNameOf adapter)
  | IsOther from within => mkEnvelope from within (adapterNameOf adapter)
  end.

Definition callbackFailure (listener : L) (e : JS.Error) : LogEntry :=
  mkLog error
    ("[Listener] " +:+ describe listener +:+ " callback failed: "
     +:+ JS.Error_toString e) [].

(** Modelled from the spec: [Listener.call] ([./listener] is not among the
    sources): "test the message text against the compiled pattern; on
    match, construct a Response binding the match groups, the Envelope, and
    the firing adapter, and invoke the listener's callback with that
    Response. Each listener catches and logs (never propagates) exceptions
    raised by its own callback", the log entry carrying "context
    (listener/plugin identity)". *)
Definition call (listener : L) (msg : Message U R) (adapter : A)
  (callback : Nullable Callback) : T St unit :=
  fun s =>
    match matcherOf listener msg with
    | None => (Return tt, s)
    | Some groups =>
        let response :=
          mkResponse msg groups (envelopeFor msg adapter) adapter in
        match callbackOf listener response s with
        | (Return _, s') => (Return tt, s')
        | (Throw e, s') => (Return tt, logged s' [callbackFailure listener e])
        end
    end.

End Call.
End Listener.

(** ** Text primitives of [parseHelp] *)

Module JSText.

(** [String.prototype.trim]; the white space is that of [\s]. *)
Fixpoint trimStart (s : string) : string :=
  match s with
  | EmptyString => EmptyString
  | String c s' => if JS.isWhiteSpace c then trimStart s' else s
  end.

Fixpoint trimEnd (s : string) : string :=
  match s with
  | EmptyString => EmptyString
  | String c s' =>
      match trimEnd s' with
      | EmptyString => if JS.isWhiteSpace c then EmptyString else String c EmptyString
      | kept => String c kept
      end
  end.

Definition trim (s : string) : string := trimEnd (trimStart s).

(** What is left of [s] after the prefix [p], when [s] begins with [p]. *)
Fixpoint afterPrefix (p s : string) : option string :=
  match p, s with
  | EmptyString, _ => Some s
  | String a p', String b s' => if Ascii.eqb a b then afterPrefix p' s' else None
  | String _ _, EmptyString => None
  end.

(** The first occurrence of [p] in [s]: what stands before it and what
    stands after it. *)
Fixpoint cutAtFirst (p s : string) : option (string * string) :=
  match afterPrefix p s with
  | Some rest => Some (EmptyString, rest)
  | None =>
      match s with
      | EmptyString => None
      | String c s' =>
          match cutAtFirst p s' with
          | Some (before, rest) => Some (String c before, rest)
          | None => None
          end
      end
  end.

(** The replacement text of [replace]: [$$], [$&], [$`] and [$'] stand for
    a dollar sign, the match, what is before it and what is after it; with
    a string as the pattern there are no groups, and every other [$] is
    itself. *)
Fixpoint substitution (template matched before rest : string) : string :=
  match template with
  | EmptyString => EmptyString
  | String c template' =>
      if Ascii.eqb c "$" then
        match template' with
        | String d template'' =>
            if Ascii.eqb d "$" then
              String "$" (substitution template'' matched before rest)
            else if Ascii.eqb d "&" then
              matched +:+ substitution template'' matched before rest
            else if Ascii.eqb d "`" then
              before +:+ substitution template'' matched before rest
            else if Ascii.eqb d "'" then
              rest +:+ substitution template'' matched before rest
            else String c (substitution template' matched before rest)
        | EmptyString => String c EmptyString
        end
      else String c (substitution template' matched before rest)
  end.

(** [s.replace(p, template)] with a string [p]: the first occurrence only. *)
Definition replace (p template s : string) : string :=
  match cutAtFirst p s with
  | Some (before, rest) =>
      before +:+ substitution template p before rest +:+ rest
  | None => s
  end.

End JSText.

(** ** The help of a script *)

Module Help.

Definition HUBOT_DOCUMENTATION_SECTIONS : list string :=
  [ "description"; "dependencies"; "configuration"; "commands"; "notes";
    "author"; "authors"; "examples"; "tags"; "urls" ].

(** [scriptDocumentation] and [currentSection]. *)
Definition Progress : Type := gmap string (list string) * option string.

(** [/^(#|\/\/)\s?/] on a line: what follows the match, if there is one. *)
Definition afterCommentMark (line : string) : option string :=
  let oneSpace (s : string) :=
    match s with
    | String c s' => if JS.isWhiteSpace c then s' else s
    | EmptyString => s
    end in
  match JSText.afterPrefix "#" line, JSText.afterPrefix "//" line with
  | Some rest, _ => Some (oneSpace rest)
  | None, Some rest => Some (oneSpace rest)
  | None, None => None
  end.

(** [line.replace] of the match of [/^(#|\/\/)\s?/] by the empty string,
    then [trim()], for a line the expression matches. *)
Definition cleaned (line : string) : option string :=
  match afterCommentMark line with
  | Some rest => Some (JSText.trim rest)
  | None => None
  end.

(** [cleanedLine.toLowerCase()], its first colon replaced by the empty
    string, then [trim()]. *)
Definition sectionNamed (cleanedLine : string) : string :=
  JSText.trim (JSText.replace ":" EmptyString (JS.toLowerCase cleanedLine)).

(** The section a line opens, when it is the heading of one. *)
Definition headingOf (text : string) : option string :=
  match cleaned text with
  | Some cleanedLine =>
      if String.eqb cleanedLine EmptyString then None
      else if bool_decide (sectionNamed cleanedLine ∈ HUBOT_DOCUMENTATION_SECTIONS)
           then Some (sectionNamed cleanedLine)
           else None
  | None => None
  end.

(** The four replacements made in a line of the [commands] section. *)
Definition mentionBot (botname cleanedLine : string) : string :=
  let cleanedLine := JSText.replace "@hubot" ("@" +:+ botname) cleanedLine in
  let cleanedLine := JSText.replace "hubot" ("@" +:+ botname) cleanedLine in
  let cleanedLine := JSText.replace "@bot" ("@" +:+ botname) cleanedLine in
  JSText.replace "bot" ("@" +:+ botname) cleanedLine.

(** The body of the loop, for one line. *)
Definition line (botname : string) (progress : Progress) (text : string)
  : Result Progress :=
  let '(scriptDocumentation, currentSection) := progress in
  match cleaned text with
  | None => Return (scriptDocumentation, None)
  | Some cleanedLine =>
      if String.eqb cleanedLine EmptyString then Return progress
      else
        let nextSection := sectionNamed cleanedLine in
        if bool_decide (nextSection ∈ HUBOT_DOCUMENTATION_SECTIONS) then
          Return (<[nextSection := []]> scriptDocumentation, Some nextSection)
        else
          match currentSection with
          | Some section =>
              if JS.truthy section then
                let cleanedLine :=
                  if String.eqb section "commands"
                  then mentionBot botname cleanedLine
                  else cleanedLine in
                match scriptDocumentation !! section with
                | Some lines =>
                    Return (<[section := lines ++ [cleanedLine]]> scriptDocumentation,
                            currentSection)
                | None =>
                    Throw (JS.TypeError "Cannot read property 'push' of undefined")
                end
              else Return progress
          | None => Return progress
          end
  end.

(** [for (let line of lines) ...]: the array is a fresh one, nothing
    changes it under the loop. *)
Fixpoint lines (botname : string) (progress : Progress) (texts : list string)
  : Result Progress :=
  match texts with
  | [] => Return progress
  | text :: texts' =>
      match line botname progress text with
      | Return progress' => lines botname progress' texts'
      | Throw e => Throw e
      end
  end.

(** [parseHelp], from the text of the file on. *)
Definition ofBody (botname body : string) : Result (gmap string (list string)) :=
  match lines botname (∅, None) (JS.split (ascii_of_nat 10) body) with
  | Return (scriptDocumentation, _) => Return scriptDocumentation
  | Throw e => Throw e
  end.

(** What the loop keeps true of [scriptDocumentation] and [currentSection]:
    the keys are section names, the current section is a key, and no line
    kept is empty. *)
Definition sound (progress : Progress) : Prop :=
  (forall k, is_Some (progress.1 !! k) -> k ∈ HUBOT_DOCUMENTATION_SECTIONS)
  /\ (forall section, progress.2 = Some section -> is_Some (progress.1 !! section))
  /\ (forall k kept text, progress.1 !! k = Some kept -> text ∈ kept ->
        text <> EmptyString).

Section ParseHelp.
Context {L A W U R Msg : Type}.

(** [readFileSync(path, "utf-8")]: the text of the file, or the error of
    the file system. *)
Variable readFileSync : string -> Result string.

Definition parseHelp (path : string)
  : M (State L A W) (Event L A W U R Msg) (gmap string (list string)) :=
  fun s =>
    match readFileSync path with
    | Return body => (ofBody (name s) body, s, [])
    | Throw e => (Throw e, s, [])
    end.

End ParseHelp.
End Help.

(** ** The name a plugin is kept under *)

Module Plugins.

(** In [init], for the file a plugin was resolved to:
    [parts = filename.split("/")], and the last of [parts] with its first
    [".js"] and then its first [".coffee"] replaced by the empty string.
    [split] gives at least one piece. *)
Definition pluginName (filename : string) : string :=
  let parts := JS.split "/" filename in
  match last parts with
  | Some piece =>
      JSText.replace ".coffee" EmptyString (JSText.replace ".js" EmptyString piece)
  | None => EmptyString
  end.

End Plugins.

(** ** The pattern of [respond], whatever the name of the bot *)

Module Literal.

(** A word: letters, digits and the underscore. *)
Definition wordy (word : string) : bool :=
  forallb Regex.isWordChar (list_ascii_of_string word).

(** A text that begins with neither white space nor [@]. *)
Definition unmarked (text : string) : bool :=
  match text with
  | String c _ => negb (JS.isWhiteSpace c) && negb (Ascii.eqb c "@")
  | EmptyString => true
  end.

(** The tokens and the node of a run of characters that stand for
    themselves; the node goes on with [tail]. *)
Definition atoms (cs : list ascii) : list Regex.Token :=
  map (fun c => Regex.TAtom (Regex.Char c)) cs.

Fixpoint chars (cs : list ascii) (tail : Regex.Node) : Regex.Node :=
  match cs with
  | [] => tail
  | c :: cs' => Regex.Seq (Regex.Char c) (chars cs' tail)
  end.

(** Reading such a run off a text: the position after it, when the text
    has the run there. *)
Fixpoint skip (fl : Regex.Flags) (cs : list ascii) (prev : option ascii)
  (text : list ascii) : option (option ascii * list ascii) :=
  match cs, text with
  | [], _ => Some (prev, text)
  | c :: cs', x :: text' =>
      if Regex.sameChar fl c x then skip fl cs' (Some x) text' else None
  | _ :: _, [] => None
  end.

Definition space : Regex.Node := Regex.Class false [Regex.CSpace true].

(** The tokens and the node of [^\s*[@]*<botname>[:,]?\s*(?:<word>)]. *)
Definition wrappedTokens (botname word : string) : list Regex.Token :=
  [ Regex.TCaret; Regex.TAtom space; Regex.TStar;
    Regex.TAtom (Regex.Class false [Regex.COne "@"]); Regex.TStar ]
  ++ atoms (list_ascii_of_string (JS.toLowerCase botname))
  ++ [ Regex.TAtom (Regex.Class false [Regex.COne ":"; Regex.COne ","]);
       Regex.TQuest; Regex.TAtom space; Regex.TStar; Regex.TOpen ]
  ++ atoms (list_ascii_of_string word)
  ++ [ Regex.TClose ].

Definition afterName (word : string) : Regex.Node :=
  Regex.Seq
    (Regex.Alt (Regex.Class false [Regex.COne ":"; Regex.COne ","]) Regex.Empty)
    (Regex.Seq (Regex.Star space)
       (Regex.Seq
          (Regex.Group (chars (list_ascii_of_string word) Regex.Empty))
          Regex.Empty)).

Definition wrappedNode (botname word : string) : Regex.Node :=
  Regex.Seq Regex.AssertStart
    (Regex.Seq (Regex.Star space)
       (Regex.Seq (Regex.Star (Regex.Class false [Regex.COne "@"]))
          (chars (list_ascii_of_string (JS.toLowerCase botname))
             (afterName word)))).

End Literal.

(** ** A small installation

    One concrete robot, used to run the model: users and rooms are named by
    strings, adapters by their names, and the world is the list of what the
    [shell] adapter has written out. *)

#[export] Instance string_toString : ToString string := fun s => s.
#[export] Instance string_named : Named string := fun s => s.

Module Demo.

(** The listeners of the installation. *)
Inductive Plugin :=
| Registrar
| Made (pattern : Pattern)
| Faulty.

Definition World : Type := list (string * list Value).

(** What reaches [receive] at run time and passes [!msg]: a message, or a
    value that is no message at all (a caller in plain JavaScript is not
    held to the declared parameter type): a string that is not empty, by
    its first character and the rest, or an array. *)
Inductive Inbound :=
| Typed (m : Message string string)
| StrayText (first : ascii) (rest : string)
| StrayArray (items : list Value).

(** A loosely typed value as the argument of [receive]: the empty string
    is the one that [!msg] turns away. *)
Definition given (v : Value) : Nullable Inbound :=
  match v with
  | VString EmptyString => falsy FEmptyString
  | VString (String first rest) => Obj (StrayText first rest)
  | VArray items => Obj (StrayArray items)
  end.

(** Whether the argument is a [TextMessage], the variant the dispatcher
    names in its cast; whether it is a [Message] of any variant. *)
Definition isTextMessage (x : Nullable Inbound) : bool :=
  match x with
  | Obj (Typed (IsText _)) => true
  | _ => false
  end.

Definition isMessage (x : Nullable Inbound) : bool :=
  match x with
  | Obj (Typed _) => true
  | _ => false
  end.

Abbreviation St := (State Plugin string World).
Abbreviation Ev := (Event Plugin string World string string Inbound).
Abbreviation CallbackOn Msg :=
  (ResponseCallback Plugin string World string string Msg).

(** The engine accepts what the model of patterns gives a meaning to. *)
Definition accepts (pattern flags : string) : bool :=
  match Regex.parse pattern,
        Regex.parseFlags flags (Regex.mkFlags false false false) with
  | Some _, Some _ => true
  | _, _ => false
  end.

Definition quiet {Msg} : CallbackOn Msg := fun _ s => (Return tt, s).

Definition TextListener_new {Msg} (pattern : Pattern) (options : unit)
  (callback : CallbackOn Msg) : Plugin := Made pattern.

(** The [shell] adapter overrides [send] and [reply] and writes out what
    it is given; every other adapter object is a plain [Adapter]. *)
Definition write (this : string) (envelope : Envelope string string)
  (strings : list Value) : T St unit :=
  fun s =>
    (Return tt,
     mkState (name s) (pluginListeners s) (adapters s) (logger s)
       (world s ++ [(this, strings)])).

Definition silent (this : string) (envelope : Envelope string string)
  (strings : list Value) : T St unit :=
  fun s => (Return tt, s).

Definition plainClass : AdapterClass Plugin string World string string :=
  Adapter.base (Msg:=Inbound)
    (fun _ => mkAdapterClass silent silent silent silent silent).

Definition shellClass : AdapterClass Plugin string World string string :=
  let inherited :=
    Adapter.base (Msg:=Inbound)
      (fun _ => mkAdapterClass write write silent silent silent) in
  mkAdapterClass write write
    (emote_of inherited) (topic_of inherited) (play_of inherited).

Definition classOf (this : string) : AdapterClass Plugin string World string string :=
  if String.eqb this "shell" then shellClass else plainClass.

(** [Registrar] is a listener whose call registers another listener, as a
    plugin callback that calls [robot.hear] does; the other listeners do
    nothing when called. *)
Definition call {Msg} (listener : Plugin) (msg : Msg) (adapter : string)
  (callback : Nullable (CallbackOn Msg)) : T St unit :=
  match listener with
  | Registrar =>
      untraced (Robot.hear (Msg:=Msg) TextListener_new (PString "late") tt quiet)
  | _ => fun s => (Return tt, s)
  end.

(** With [Listener.call]: every listener matches, and the callback of
    [Faulty] throws. *)
Definition matcherOf (listener : Plugin) (msg : Message string string)
  : option (list string) := Some [].

Definition callbackOf (listener : Plugin) : CallbackOn (Message string string) :=
  match listener with
  | Faulty => fun _ s => (Throw (JS.Err "plugin failure"), s)
  | _ => quiet
  end.

Definition describe (listener : Plugin) : string :=
  match listener with
  | Registrar => "registrar"
  | Made pattern => toString pattern
  | Faulty => "faulty"
  end.

Definition robot (listeners : list Plugin) : St :=
  mkState "botname" listeners {[ "shell" := "shell" ]} [] [].

Definition helloMessage : Message string string :=
  IsText (mkTextMessage "botname foo" "alice" "general").

Definition hello : Inbound := Typed helloMessage.

Definition joined : Inbound := Typed (IsOther "alice" "general").

Definition stray : Inbound := StrayText "b" "otname foo".

Definition toSlack : Envelope string string :=
  mkEnvelope "alice" "general" "slack".

Definition toShell : Envelope string string :=
  mkEnvelope "alice" "general" "shell".

End Demo.


(** ** More of the installation *)

Module Samples.

(** A [Listener.call] without a handler of its own: [Faulty] throws. *)
Definition brittle (listener : Demo.Plugin) (msg : Demo.Inbound)
  (adapter : string) (callback : Nullable (Demo.CallbackOn Demo.Inbound))
  : T Demo.St unit :=
  match listener with
  | Demo.Faulty => fun s => (Throw (JS.Err "plugin failure"), s)
  | _ => fun s => (Return tt, s)
  end.

(** A [Listener.call] in which [Registrar] registers its listener only
    while the array holds fewer than two. *)
Definition careful (listener : Demo.Plugin) (msg : Demo.Inbound)
  (adapter : string) (callback : Nullable (Demo.CallbackOn Demo.Inbound))
  : T Demo.St unit :=
  match listener with
  | Demo.Registrar =>
      fun s =>
        if length (pluginListeners s) <? 2
        then Demo.call Demo.Registrar msg adapter callback s
        else (Return tt, s)
  | _ => fun s => (Return tt, s)
  end.

(** An adapter class whose [send] and [reply] fail. *)
Definition offline (this : string) (envelope : Envelope string string)
  (strings : list Value) : T Demo.St unit :=
  fun s => (Throw (JS.Err "socket closed"), s).

Definition offlineClass (this : string)
  : AdapterClass Demo.Plugin string Demo.World string string :=
  mkAdapterClass offline offline Demo.silent Demo.silent Demo.silent.

(** An engine that accepts nothing. *)
Definition rejects (pattern flags : string) : bool := false.

(** A script with its help, and the file system that holds it. *)
Definition newline : string := String (ascii_of_nat 10) EmptyString.

Definition pingScript : string :=
  "// Description:" +:+ newline
  +:+ "//   Answers a ping" +:+ newline
  +:+ "//" +:+ newline
  +:+ "// Commands:" +:+ newline
  +:+ "//   hubot ping - answers pong" +:+ newline
  +:+ "//   status - says how things are" +:+ newline
  +:+ "module.exports = (robot) => {};" +:+ newline
  +:+ "// not part of the help".

Definition readFileSync (path : string) : Result string :=
  if String.eqb path "scripts/ping.js" then Return pingScript
  else Throw (JS.Err ("ENOENT: no such file or directory, open '" +:+ path +:+ "'")).

(** The robot under another name. *)
Definition named (botname : string) : Demo.St :=
  mkState botname [] {[ "shell" := "shell" ]} [] [].

End Samples.
(** * Properties *)

(** ** Strings and arrays *)

Module JSFacts.

Lemma split_nonempty sep s : JS.split sep s <> [].
Proof.
  destruct s as [|c s]; simpl; [discriminate|].
  destruct (Ascii.eqb c sep); [discriminate|].
  destruct (JS.split sep s); discriminate.
Qed.

(** Splitting at a separator that stands between two strings. *)
Lemma split_app sep a b :
  JS.split sep (a +:+ String sep b) = JS.split sep a ++ JS.split sep b.
Proof.
  induction a as [|c a IH]; simpl.
  - now rewrite Ascii.eqb_refl.
  - destruct (Ascii.eqb c sep); [now rewrite IH|].
    rewrite IH. pose proof (split_nonempty sep a) as Hne.
    destruct (JS.split sep a); [congruence|reflexivity].
Qed.

Lemma split_absent sep s :
  existsb (Ascii.eqb sep) (list_ascii_of_string s) = false ->
  JS.split sep s = [s].
Proof.
  induction s as [|c s IH]; simpl; [reflexivity|].
  intros H. apply orb_false_elim in H as [Hc Hs].
  rewrite Ascii.eqb_sym, Hc, (IH Hs). reflexivity.
Qed.

Lemma join_split sep s : JS.join (String sep EmptyString) (JS.split sep s) = s.
Proof.
  induction s as [|c s IH]; simpl; [reflexivity|].
  destruct (Ascii.eqb c sep) eqn:E.
  - apply Ascii.eqb_eq in E. subst c.
    pose proof (split_nonempty sep s) as Hne.
    destruct (JS.split sep s) as [|p ps] eqn:Es; [congruence|].
    change (JS.join (String sep EmptyString) (EmptyString :: p :: ps))
      with (String sep (JS.join (String sep EmptyString) (p :: ps))).
    now rewrite IH.
  - pose proof (split_nonempty sep s) as Hne.
    destruct (JS.split sep s) as [|p ps] eqn:Es; [congruence|].
    destruct ps as [|q qs]; simpl in *; now rewrite <- IH.
Qed.

Lemma pop_snoc {X} (l : list X) (x : X) : JS.pop (l ++ [x]) = (l, Some x).
Proof.
  unfold JS.pop. now rewrite removelast_last, last_snoc.
Qed.

Lemma validFlags_no_slash fl :
  JS.validFlags fl = true ->
  existsb (Ascii.eqb "/") (list_ascii_of_string fl) = false.
Proof.
  unfold JS.validFlags. induction (list_ascii_of_string fl) as [|c l IH];
    cbn [forallb existsb]; [reflexivity|].
  intros H. apply andb_prop in H as [Hc Hl]. rewrite (IH Hl), orb_false_r.
  destruct (Ascii.eqb "/" c) eqn:E; [|reflexivity].
  apply Ascii.eqb_eq in E. subst c. discriminate.
Qed.

(** What [respondPattern] gets out of [regex.toString()]: the pieces of the
    source and, last, the flags. *)
Lemma toString_pieces (r : JS.RegExp) :
  JS.validFlags (JS.flags r) = true ->
  JS.pop (JS.shift (JS.split "/" (JS.RegExp_toString r)))
  = (JS.split "/" (JS.source r), Some (JS.flags r)).
Proof.
  intros Hfl. unfold JS.RegExp_toString.
  change ("/" +:+ JS.source r +:+ "/" +:+ JS.flags r)
    with (String "/" (JS.source r +:+ String "/" (JS.flags r))).
  cbn [JS.split]. rewrite Ascii.eqb_refl. unfold JS.shift. cbn [tail].
  rewrite split_app, (split_absent _ _ (validFlags_no_slash _ Hfl)).
  apply pop_snoc.
Qed.

End JSFacts.

(** ** The pattern of a [respond] listener *)

Module PatternFacts.
Section Patterns.
Context {L A W O U R Msg : Type}.

Local Abbreviation St := (State L A W).
Local Abbreviation Ev := (Event L A W U R Msg).
Local Abbreviation Callback := (ResponseCallback L A W U R Msg).

Variable TextListener_new : Pattern -> O -> Callback -> L.
Variable accepts : string -> string -> bool.

Lemma anchored_split (src : string) :
  Robot.anchored (JS.split "/" src) = Robot.beginsWithAnchor src.
Proof.
  destruct src as [|c src]; [reflexivity|].
  unfold Robot.anchored, Robot.beginsWithAnchor. cbn [JS.split].
  destruct (Ascii.eqb c "/") eqn:E.
  - apply Ascii.eqb_eq in E. now subst c.
  - destruct (JS.split "/" src); reflexivity.
Qed.

Lemma logged_nil (s : St) : logged s [] = s.
Proof. destruct s. unfold logged. cbn. now rewrite app_nil_r. Qed.

Lemma logged_logged (s : St) (xs ys : list LogEntry) :
  logged (logged s xs) ys = logged s (xs ++ ys).
Proof. unfold logged. cbn. now rewrite app_assoc. Qed.

(** A string pattern is returned as a template, and nothing is logged. *)
Lemma respondPattern_string (p : string) (s : St) :
  Robot.respondPattern (U:=U) (R:=R) (Msg:=Msg) accepts (PString p) s
  = (Return (PString ("{:BOT_NAME} " +:+ p)), s, []).
Proof. reflexivity. Qed.

(** A [RegExp] is taken apart, and its source, wrapped, goes to the
    constructor with the flags. *)
Lemma respondPattern_regexp (r : JS.RegExp) (s : St) :
  JS.validFlags (JS.flags r) = true ->
  Robot.respondPattern (U:=U) (R:=R) (Msg:=Msg) accepts (PRegExp r) s
  = (if accepts (Robot.wrapped (name s) (JS.source r)) (Robot.modifiersFor r)
     then Return (PRegExp (JS.mkRegExp (Robot.wrapped (name s) (JS.source r))
                             (Robot.modifiersFor r)))
     else Throw (JS.SyntaxError
                   ("Invalid regular expression: /"
                    +:+ Robot.wrapped (name s) (JS.source r) +:+ "/"
                    +:+ Robot.modifiersFor r)),
     logged s (Robot.anchorWarnings r), []).
Proof.
  intros Hfl. unfold Robot.respondPattern, bind, Robot.get.
  rewrite (JSFacts.toString_pieces r Hfl), anchored_split.
  unfold Robot.anchorWarnings, Robot.modifiersFor, Robot.wrapped, Robot.RegExp_new.
  rewrite JSFacts.join_split.
  cbn [JS.truthy_opt default].
  destruct (Robot.beginsWithAnchor (JS.source r));
    destruct (JS.truthy (JS.flags r)); cbn;
    rewrite ?logged_logged, ?logged_nil;
    match goal with |- context [accepts ?p ?f] => destruct (accepts p f) end;
    reflexivity.
Qed.



(** When the engine rejects the wrapped pattern, [respond] throws and
    registers nothing. *)
Lemma respond_regexp_rejected (r : JS.RegExp) (options : O)
  (callback : Callback) (s : St) :
  JS.validFlags (JS.flags r) = true ->
  accepts (Robot.wrapped (name s) (JS.source r)) (Robot.modifiersFor r) = false ->
  exists e s',
    Robot.respond (U:=U) (R:=R) (Msg:=Msg) TextListener_new accepts (PRegExp r) options
      callback s
    = (Throw e, s', [])
    /\ pluginListeners s' = pluginListeners s.
Proof.
  intros Hfl Hno. unfold Robot.respond, bind at 1 2. unfold Robot.log at 1.
  rewrite (respondPattern_regexp r _ Hfl). cbn [name logged].
  rewrite Hno. eexists _, _. split; reflexivity.
Qed.

End Patterns.
End PatternFacts.

(** ** Patterns that cannot match *)

Module RegexFacts.
Import Regex.





End RegexFacts.

(** ** Dispatch *)

Module DispatchFacts.
Section Dispatch.
Context {L A W U R Msg : Type}.

Local Abbreviation St := (State L A W).
Local Abbreviation Ev := (Event L A W U R Msg).
Local Abbreviation Code := (M St Ev).
Local Abbreviation Callback := (ResponseCallback L A W U R Msg).

(** When no step of the body touches the array of listeners, the loop goes
    through it once, from index [i] to its end. *)
Lemma forOf_stable (body : L -> Code unit) (ev : L -> Ev) (ls : list L) :
  (forall l, l ∈ ls -> forall s, pluginListeners s = ls ->
     exists s', body l s = (Return tt, s', [ev l]) /\ pluginListeners s' = ls) ->
  forall fuel i s,
    pluginListeners s = ls ->
    length ls - i < fuel ->
    exists s',
      Robot.forOfListeners fuel i body s
      = Some (Return tt, s', map ev (drop i ls))
      /\ pluginListeners s' = ls.
Proof.
  intros Hbody. induction fuel as [|fuel IH]; intros i s Hs Hfuel; [lia|].
  cbn [Robot.forOfListeners]. rewrite Hs.
  destruct (ls !! i) as [l|] eqn:Hl.
  - destruct (Hbody l (list_elem_of_lookup_2 _ _ _ Hl) s Hs) as (s1 & Hrun & Hs1).
    rewrite Hrun.
    pose proof (lookup_lt_Some _ _ _ Hl) as Hi.
    destruct (IH (S i) s1 Hs1 ltac:(lia)) as (s2 & Hloop & Hs2).
    rewrite Hloop. exists s2. split; [|exact Hs2].
    now rewrite (drop_S _ _ _ Hl).
  - exists s. split; [|exact Hs].
    now rewrite (drop_ge _ _ (proj1 (lookup_ge_None _ _) Hl)).
Qed.

(** When the steps of the body only append to the array, a loop that
    finishes has gone through the whole array as it is at the end. *)
Lemma forOf_append_only (body : L -> Code unit) (ev : L -> Ev) :
  (forall l s, exists s' extra,
      body l s = (Return tt, s', [ev l])
      /\ pluginListeners s' = pluginListeners s ++ extra) ->
  forall fuel i s res s' tr,
    Robot.forOfListeners fuel i body s = Some (res, s', tr) ->
    res = Return tt
    /\ tr = map ev (drop i (pluginListeners s'))
    /\ exists extra, pluginListeners s' = pluginListeners s ++ extra.
Proof.
  intros Hbody. induction fuel as [|fuel IH]; intros i s res s' tr;
    [discriminate|].
  cbn [Robot.forOfListeners].
  destruct (pluginListeners s !! i) as [l|] eqn:Hl.
  - destruct (Hbody l s) as (s1 & e1 & Hrun & Hs1). rewrite Hrun.
    destruct (Robot.forOfListeners fuel (S i) body s1)
      as [[[res' s2] tr']|] eqn:Hloop; [|discriminate].
    intros [= <- <- <-].
    destruct (IH _ _ _ _ _ Hloop) as (Hres & Htr & e2 & Hs2).
    split; [exact Hres|]. split.
    + assert (Hl' : pluginListeners s2 !! i = Some l).
      { rewrite Hs2, Hs1, <- app_assoc. now apply lookup_app_l_Some. }
      rewrite (drop_S _ _ _ Hl'), Htr. reflexivity.
    + exists (e1 ++ e2). now rewrite Hs2, Hs1, app_assoc.
  - intros [= <- <- <-]. split; [reflexivity|]. split.
    + now rewrite (drop_ge _ _ (proj1 (lookup_ge_None _ _) Hl)).
    + exists []. now rewrite app_nil_r.
Qed.

(** Every call the loop records is a call its body records. *)
Lemma forOf_trace (body : L -> Code unit) (P : Ev -> Prop) :
  (forall l s, Forall P (snd (body l s))) ->
  forall fuel i s,
    match Robot.forOfListeners fuel i body s with
    | Some (_, _, tr) => Forall P tr
    | None => True
    end.
Proof.
  intros Hbody. induction fuel as [|fuel IH]; intros i s; [exact I|].
  cbn [Robot.forOfListeners].
  destruct (pluginListeners s !! i) as [l|]; [|constructor].
  pose proof (Hbody l s) as Hl.
  destruct (body l s) as [[[x|e] s1] tr]; cbn [snd] in Hl; [|exact Hl].
  specialize (IH (S i) s1).
  destruct (Robot.forOfListeners fuel (S i) body s1) as [[[r s2] tr']|];
    [|exact I].
  now apply Forall_app.
Qed.

(** The loop has no handler of its own: what a listener throws ends it. *)
Lemma forOf_throw (body : L -> Code unit) (fuel i : nat) (s s' : St)
  (l : L) (e : JS.Error) (tr : list Ev) :
  pluginListeners s !! i = Some l ->
  body l s = (Throw e, s', tr) ->
  Robot.forOfListeners (S fuel) i body s = Some (Throw e, s', tr).
Proof. intros Hl Hrun. cbn [Robot.forOfListeners]. now rewrite Hl, Hrun. Qed.

End Dispatch.
End DispatchFacts.

Module Dispatch.
Section Receive.
Context {L A W U R Msg : Type}.

Local Abbreviation St := (State L A W).
Local Abbreviation Ev := (Event L A W U R Msg).
Local Abbreviation Callback := (ResponseCallback L A W U R Msg).

Variable Listener_call :
  L -> Msg -> A -> Nullable Callback -> T St unit.

(** C1, as the code has it. When no listener's [call] changes the array of
    listeners or throws, [receive] returns after it has invoked
    [listener.call(msg, adapter, callback)] exactly once for each registered
    listener, in registration order. (The loop reads the array as it is at
    each step: a listener that is appended while the loop runs is called
    too.) *)
Theorem receive_calls_each_listener_once
  (msg : Msg) (adapter : A) (callback : Nullable Callback)
  (s : St) (fuel : nat) :
  (forall l, l ∈ pluginListeners s ->
     forall r, pluginListeners r = pluginListeners s ->
       exists r', Listener_call l msg adapter callback r = (Return tt, r')
                  /\ pluginListeners r' = pluginListeners s) ->
  length (pluginListeners s) < fuel ->
  exists s',
    Robot.receive Listener_call fuel (Obj msg) adapter callback s
    = Some (Return tt, s',
            map (fun l => ListenerCall l msg adapter callback)
              (pluginListeners s))
    /\ pluginListeners s' = pluginListeners s.
Proof.
  intros Hkeep Hfuel. unfold Robot.receive.
  destruct (DispatchFacts.forOf_stable
              (fun l => invoke (ListenerCall l msg adapter callback)
                          (Listener_call l msg adapter callback))
              (fun l => ListenerCall l msg adapter callback)
              (pluginListeners s)) with (fuel := fuel) (i := 0) (s := s)
    as (s' & Hrun & Hs'); [|reflexivity|lia|].
  - intros l Hl r Hr. destruct (Hkeep l Hl r Hr) as (r' & Hcall & Hr').
    exists r'. unfold invoke. now rewrite Hcall.
  - exists s'. now rewrite Hrun, drop_0.
Qed.

(** C7, as the code has it. The guard is [!msg]: for [null], for
    [undefined] and for every other value that JavaScript counts as false
    (the empty string, [0], [-0], [0n], [NaN], [false]), [receive] writes
    one line at level [info] and returns, no listener is called and nothing
    else changes. Every value that JavaScript counts as true passes the
    guard, whatever it is: it reaches the loop over the listeners. *)
Theorem receive_blank_only_logs
  (fuel : nat) (adapter : A) (callback : Nullable Callback) (s : St) :
  Robot.receive Listener_call fuel null adapter callback s
  = Some (Return tt, logged s [mkLog info "[Robot] blank message error" []], [])
  /\ Robot.receive Listener_call fuel undefined adapter callback s
     = Some (Return tt, logged s [mkLog info "[Robot] blank message error" []], [])
  /\ (forall v : Falsy,
        Robot.receive Listener_call fuel (falsy v) adapter callback s
        = Some (Return tt,
                logged s [mkLog info "[Robot] blank message error" []], []))
  /\ forall msg : Msg,
       Robot.receive Listener_call fuel (Obj msg) adapter callback s
       = Robot.forOfListeners fuel 0
           (fun l =>
              invoke (ListenerCall l msg adapter callback)
                (Listener_call l msg adapter callback))
           s.
Proof. repeat split. Qed.

(** Listeners that only register listeners: when [receive] returns, it
    has called every listener registered by then, those of the beginning
    first, each once. *)
Lemma receive_calls_appended_listeners
  (msg : Msg) (adapter : A) (callback : Nullable Callback)
  (s s' : St) (fuel : nat) (res : Result unit) (tr : list Ev) :
  (forall l r, exists r' extra,
      Listener_call l msg adapter callback r = (Return tt, r')
      /\ pluginListeners r' = pluginListeners r ++ extra) ->
  Robot.receive Listener_call fuel (Obj msg) adapter callback s
  = Some (res, s', tr) ->
  res = Return tt
  /\ tr = map (fun l => ListenerCall l msg adapter callback) (pluginListeners s')
  /\ exists extra, pluginListeners s' = pluginListeners s ++ extra.
Proof.
  intros Happend Hrun. unfold Robot.receive in Hrun.
  apply DispatchFacts.forOf_append_only
    with (ev := fun l => ListenerCall l msg adapter callback) in Hrun.
  - now rewrite drop_0 in Hrun.
  - intros l r. destruct (Happend l r) as (r' & extra & Hcall & Hr').
    exists r', extra. unfold invoke. now rewrite Hcall.
Qed.

(** What [receive] does with a listener that throws: the loop ends there,
    the error reaches the caller, and the listeners after it are not
    called. *)
Lemma receive_has_no_handler
  (msg : Msg) (adapter : A) (callback : Nullable Callback)
  (s s' : St) (l : L) (ls : list L) (e : JS.Error) (fuel : nat) :
  pluginListeners s = l :: ls ->
  Listener_call l msg adapter callback s = (Throw e, s') ->
  Robot.receive Listener_call (S fuel) (Obj msg) adapter callback s
  = Some (Throw e, s', [ListenerCall l msg adapter callback]).
Proof.
  intros Hs Hcall. unfold Robot.receive.
  apply DispatchFacts.forOf_throw with (l := l).
  - now rewrite Hs.
  - unfold invoke. now rewrite Hcall.
Qed.

(** C9. The base [Adapter.receive] is [robot.receive(message, this, null)]:
    every call to a listener made on this path carries the message, the
    adapter itself and [null] for the completion callback. *)
Theorem adapter_receive_passes_null
  (fuel : nat) (this : A) (message : Nullable Msg) (s : St) :
  Adapter.receive Listener_call fuel this message s
  = Robot.receive Listener_call fuel message this null s
  /\ match Adapter.receive Listener_call fuel this message s with
     | Some (_, _, tr) =>
         Forall (fun ev => exists l msg,
                     message = Obj msg /\ ev = ListenerCall l msg this null) tr
     | None => True
     end.
Proof.
  split; [reflexivity|].
  unfold Adapter.receive, Robot.receive.
  destruct message as [| |v|msg]; [constructor|constructor|constructor|].
  apply DispatchFacts.forOf_trace. intros l r. unfold invoke.
  destruct (Listener_call l msg this null r). cbn.
  constructor; [|constructor]. now exists l, msg.
Qed.

End Receive.

Section Isolation.
Context {L A W U R : Type}.

Local Abbreviation St := (State L A W).
Local Abbreviation Callback := (ResponseCallback L A W U R (Message U R)).

Variable matcherOf : L -> Message U R -> option (list string).
Variable callbackOf : L -> Callback.
Variable describe : L -> string.
Variable adapterNameOf : A -> string.

Local Abbreviation call := (Listener.call matcherOf callbackOf describe adapterNameOf).

(** [Listener.call] returns, whatever the callback does. *)
Lemma call_returns (l : L) (msg : Message U R) (adapter : A)
  (callback : Nullable Callback) (s : St) :
  fst (call l msg adapter callback s) = Return tt.
Proof.
  unfold Listener.call. destruct (matcherOf l msg); [|reflexivity].
  now destruct (callbackOf l _ s) as [[x|e] s'].
Qed.


End Isolation.
End Dispatch.

(** The installation, dispatching. *)

Lemma receive_calls_each_listener_once_witness :
  let s := Demo.robot [Demo.Made (PString "ping"); Demo.Made (PString "pong")] in
  (forall l, l ∈ pluginListeners s ->
     forall r, pluginListeners r = pluginListeners s ->
       exists r', Demo.call l Demo.hello "shell" null r = (Return tt, r')
                  /\ pluginListeners r' = pluginListeners s)
  /\ length (pluginListeners s) < 3
  /\ exists s',
       Robot.receive Demo.call 3 (Obj Demo.hello) "shell" null s
       = Some (Return tt, s',
               map (fun l => ListenerCall l Demo.hello "shell" null)
                 (pluginListeners s))
       /\ pluginListeners s' = pluginListeners s.
Proof.
  intros s.
  assert (Hkeep : forall l, l ∈ pluginListeners s ->
            forall r, pluginListeners r = pluginListeners s ->
              exists r', Demo.call l Demo.hello "shell" null r = (Return tt, r')
                         /\ pluginListeners r' = pluginListeners s).
  { intros l Hl r Hr. exists r. split; [|exact Hr].
    apply elem_of_cons in Hl as [->|Hl]; [reflexivity|].
    apply list_elem_of_singleton in Hl as ->. reflexivity. }
  assert (Hfuel : length (pluginListeners s) < 3) by (cbn; lia).
  split; [exact Hkeep|]. split; [exact Hfuel|].
  exact (Dispatch.receive_calls_each_listener_once Demo.call Demo.hello
           "shell" null s 3 Hkeep Hfuel).
Defined.

(** C1, as stated, fails: a listener registered while the message is being
    dispatched is called with that message. [Registrar] is the only
    listener when [receive] begins; its call registers a second listener,
    and the loop, which reads the array at each step, calls that one too. *)
Lemma receive_calls_late_listener :
  let s := Demo.robot [Demo.Registrar] in
  let late := Demo.Made (PString "late") in
  pluginListeners s = [Demo.Registrar]
  /\ Robot.receive Demo.call 3 (Obj Demo.hello) "shell" null s
     = Some (Return tt,
             registered
               (logged s [mkLog debug "[Robot] creating hear listener for regex" ["late"]])
               late,
             [ListenerCall Demo.Registrar Demo.hello "shell" null;
              ListenerCall late Demo.hello "shell" null]).
Proof. split; reflexivity. Qed.

(** C7, as stated, fails: a value that is no message of any variant is
    not turned away when JavaScript counts it as true. A string that is
    not empty and an array, passed to [receive], each reach the listener,
    and nothing is logged. *)
Lemma receive_dispatches_other_message :
  let s := Demo.robot [Demo.Made (PString "ping")] in
  (Demo.given (VString "botname foo") = Obj Demo.stray
   /\ Demo.isMessage (Demo.given (VString "botname foo")) = false
   /\ Robot.receive Demo.call 2 (Demo.given (VString "botname foo")) "shell" null s
      = Some (Return tt, s,
              [ListenerCall (Demo.Made (PString "ping")) Demo.stray "shell" null]))
  /\ (Demo.isMessage (Demo.given (VArray [])) = false
      /\ Robot.receive Demo.call 2 (Demo.given (VArray [])) "shell" null s
         = Some (Return tt, s,
                 [ListenerCall (Demo.Made (PString "ping")) (Demo.StrayArray [])
                    "shell" null])).
Proof. repeat split. Qed.

(** The empty string is turned away as [null] is: the guard tests whether
    the value counts as false, and nothing else. *)
Example receive_turns_empty_string_away :
  let s := Demo.robot [Demo.Made (PString "ping")] in
  Robot.receive Demo.call 2 (Demo.given (VString EmptyString)) "shell" null s
  = Some (Return tt, logged s [mkLog info "[Robot] blank message error" []], []).
Proof. reflexivity. Qed.

(** A [Message] of a variant other than [TextMessage] is dispatched like
    any other. *)
Example receive_dispatches_other_variant :
  let s := Demo.robot [Demo.Made (PString "ping")] in
  Demo.isTextMessage (Obj Demo.joined) = false
  /\ Robot.receive Demo.call 2 (Obj Demo.joined) "shell" null s
     = Some (Return tt, s,
             [ListenerCall (Demo.Made (PString "ping")) Demo.joined "shell" null]).
Proof. split; reflexivity. Qed.


(** ** Outbound routing *)

Module Routing.
Section SendReply.
Context {L A W U R Msg : Type}.
Context `{!ToString U, !ToString R, !Named R}.

Local Abbreviation St := (State L A W).
Local Abbreviation Ev := (Event L A W U R Msg).

Variable classOf : A -> AdapterClass L A W U R.

(** C2. If the adapter name of the envelope is not a key of the registry,
    [send] throws, and it has made no call to any adapter: the state is as
    before but for the line in the log. The error is the one [send] raises
    itself, unless the name is that of a member every object inherits, in
    which case calling its missing [send] raises. *)
Theorem send_unknown_adapter_throws
  (envelope : Envelope U R) (messages : Messages) (s : St) :
  adapters s !! adapterName envelope = None ->
  Robot.send (Msg:=Msg) classOf envelope messages s
  = (Throw (if bool_decide (adapterName envelope ∈ JS.objectPrototypeKeys)
            then JS.TypeError "adapter.send is not a function"
            else JS.Err ("[Robot] Invalid adapter name: "
                         +:+ adapterName envelope)),
     logged s [mkLog debug (Robot.sendLine envelope messages) []], []).
Proof.
  intros Habsent. unfold Robot.send, bind, Robot.log, Robot.get, getProperty.
  cbn [adapters logged]. rewrite Habsent.
  now destruct (bool_decide (adapterName envelope ∈ JS.objectPrototypeKeys)).
Qed.

(** C3. If the adapter name of the envelope is not a key of the registry,
    [reply] throws to its caller as well, and it has made no call to any
    adapter; the error is the one raised by calling [reply] on what the
    lookup gave. *)
Theorem reply_unknown_adapter_throws
  (envelope : Envelope U R) (messages : Messages) (s : St) :
  adapters s !! adapterName envelope = None ->
  Robot.reply (Msg:=Msg) classOf envelope messages s
  = (Throw (JS.TypeError
              (if bool_decide (adapterName envelope ∈ JS.objectPrototypeKeys)
               then "this.adapters[envelope.adapterName].reply is not a function"
               else "Cannot read property 'reply' of undefined")),
     logged s [mkLog debug (Robot.replyLine envelope messages) []], []).
Proof.
  intros Habsent. unfold Robot.reply, bind, Robot.log, Robot.get, getProperty.
  cbn [adapters logged]. rewrite Habsent.
  now destruct (bool_decide (adapterName envelope ∈ JS.objectPrototypeKeys)).
Qed.

(** With a registered adapter, each of them makes one call, to that
    adapter, with the messages as one array. *)
Lemma send_registered_adapter
  (envelope : Envelope U R) (messages : Messages) (s : St) (adapter : A) :
  adapters s !! adapterName envelope = Some adapter ->
  let strings := [VArray (map VString (Robot.asArray messages))] in
  Robot.send (Msg:=Msg) classOf envelope messages s
  = (fst (send_of (classOf adapter) adapter envelope strings
            (logged s [mkLog debug (Robot.sendLine envelope messages) []])),
     snd (send_of (classOf adapter) adapter envelope strings
            (logged s [mkLog debug (Robot.sendLine envelope messages) []])),
     [AdapterSend adapter envelope strings]).
Proof.
  intros Hfound strings.
  unfold Robot.send, bind, Robot.log, Robot.get, getProperty, invoke.
  cbn [adapters logged]. rewrite Hfound. fold strings.
  unfold logged.
  destruct (send_of _ _ _ _ _) as [[x|e] s']; reflexivity.
Qed.

End SendReply.
End Routing.

Lemma send_unknown_adapter_throws_witness :
  adapters (Demo.robot []) !! adapterName Demo.toSlack = None
  /\ Robot.send (Msg:=Demo.Inbound) Demo.classOf Demo.toSlack (Single "hi") (Demo.robot [])
     = (Throw (JS.Err "[Robot] Invalid adapter name: slack"),
        logged (Demo.robot [])
          [mkLog debug "[Robot] Sending in general via slack: hi" []],
        []).
Proof.
  assert (Habsent : adapters (Demo.robot []) !! adapterName Demo.toSlack = None)
    by reflexivity.
  split; [exact Habsent|].
  exact (Routing.send_unknown_adapter_throws Demo.classOf Demo.toSlack
           (Single "hi") (Demo.robot []) Habsent).
Defined.

Lemma reply_unknown_adapter_throws_witness :
  adapters (Demo.robot []) !! adapterName Demo.toSlack = None
  /\ Robot.reply (Msg:=Demo.Inbound) Demo.classOf Demo.toSlack (Array ["hi"; "there"]) (Demo.robot [])
     = (Throw (JS.TypeError "Cannot read property 'reply' of undefined"),
        logged (Demo.robot [])
          [mkLog debug
             "[Robot] Attempting to reply to alice in #general, message: hi,there" []],
        []).
Proof.
  assert (Habsent : adapters (Demo.robot []) !! adapterName Demo.toSlack = None)
    by reflexivity.
  split; [exact Habsent|].
  exact (Routing.reply_unknown_adapter_throws Demo.classOf Demo.toSlack
           (Array ["hi"; "there"]) (Demo.robot []) Habsent).
Defined.

(** ** Patterns registered by [respond] *)

Module Respond.
Section Respond.
Context {L A W O U R Msg : Type}.

Local Abbreviation St := (State L A W).
Local Abbreviation Ev := (Event L A W U R Msg).
Local Abbreviation Callback := (ResponseCallback L A W U R Msg).

Variable TextListener_new : Pattern -> O -> Callback -> L.
Variable accepts : string -> string -> bool.



(** C6. For a [RegExp] given to [respond], the flags that go to the
    constructor are [i] when the [RegExp] has none and the flags of the
    [RegExp], unchanged, when it has some; the pattern compiled with them
    is the result (the error of the constructor, if it rejects the wrapped
    pattern, is the only other outcome). *)
Theorem respondPattern_flags (r : JS.RegExp) (s : St) :
  let modifiers :=
    match JS.flags r with
    | EmptyString => "i"
    | String _ _ => JS.flags r
    end in
  let pattern := Robot.wrapped (name s) (JS.source r) in
  JS.validFlags (JS.flags r) = true ->
  Robot.respondPattern (U:=U) (R:=R) (Msg:=Msg) accepts (PRegExp r) s
  = (if accepts pattern modifiers
     then Return (PRegExp (JS.mkRegExp pattern modifiers))
     else Throw (JS.SyntaxError
                   ("Invalid regular expression: /" +:+ pattern +:+ "/"
                    +:+ modifiers)),
     logged s (Robot.anchorWarnings r), []).
Proof.
  intros modifiers pattern Hfl.
  rewrite (PatternFacts.respondPattern_regexp accepts r s Hfl).
  assert (Hm : Robot.modifiersFor r = modifiers)
    by (unfold Robot.modifiersFor, modifiers; now destruct (JS.flags r)).
  now rewrite Hm.
Qed.

End Respond.
End Respond.

(** The installation, registering. *)





(** An anchor at the head of a pattern does not always make it dead: an
    alternative without the anchor matches, and with [m] the anchor matches
    after a line break. *)
Example anchored_alternative_matches :
  Robot.beginsWithAnchor "^foo|bar" = true
  /\ Regex.test (JS.mkRegExp (Robot.wrapped "botname" "^foo|bar") "i")
       "botname bar" = Some true.
Proof. vm_compute. split; reflexivity. Qed.

Example anchored_multiline_matches :
  Regex.test (JS.mkRegExp (Robot.wrapped "botname" "^foo") "m")
    ("botname" +:+ String (ascii_of_nat 10) "foo") = Some true.
Proof. vm_compute. reflexivity. Qed.

Lemma respondPattern_flags_witness :
  let r := JS.mkRegExp "ping" "m" in
  JS.validFlags (JS.flags r) = true
  /\ Robot.respondPattern (U:=string) (R:=string) (Msg:=Demo.Inbound)
       Demo.accepts (PRegExp r) (Demo.robot [])
     = (Return (PRegExp (JS.mkRegExp "^\s*[@]*botname[:,]?\s*(?:ping)" "m")),
        Demo.robot [], [] : list Demo.Ev).
Proof.
  intros r.
  assert (Hfl : JS.validFlags (JS.flags r) = true) by reflexivity.
  split; [exact Hfl|].
  exact (Respond.respondPattern_flags (U:=string) (R:=string)
           (Msg:=Demo.Inbound) Demo.accepts r (Demo.robot []) Hfl).
Defined.

Example respondPattern_no_flags :
  Robot.respondPattern (U:=string) (R:=string) (Msg:=Demo.Inbound) Demo.accepts
    (PRegExp (JS.mkRegExp "ping" EmptyString)) (Demo.robot [])
  = (Return (PRegExp (JS.mkRegExp "^\s*[@]*botname[:,]?\s*(?:ping)" "i")),
     Demo.robot [], [] : list Demo.Ev).
Proof. vm_compute. reflexivity. Qed.

(** ** The base Adapter *)

Module BaseAdapter.
Section Outbound.
Context {L A W U R Msg : Type}.

Local Abbreviation St := (State L A W).
Local Abbreviation Ev := (Event L A W U R Msg).

Variable classOf : A -> AdapterClass L A W U R.

(** C10. [emote] makes one call, [this.send(envelope, strings)], whose rest
    parameter holds one value, the array of the strings; what the call does
    is up to the class of the object. The base [send], [reply], [topic]
    and [play] return and change nothing, so on an object of the base
    class [emote] changes nothing either. *)
Theorem emote_sends_one_array
  (this : A) (envelope : Envelope U R) (strings : list Value) (s : St) :
  Adapter.emote classOf this envelope strings s
  = (fst (send_of (classOf this) this envelope [VArray strings] s),
     snd (send_of (classOf this) this envelope [VArray strings] s),
     [AdapterSend this envelope [VArray strings] : Ev])
  /\ Adapter.send this envelope strings s = (Return tt, s, [] : list Ev)
  /\ Adapter.reply this envelope strings s = (Return tt, s, [] : list Ev)
  /\ Adapter.topic this envelope strings s = (Return tt, s, [] : list Ev)
  /\ Adapter.play this envelope strings s = (Return tt, s, [] : list Ev)
  /\ Adapter.emote (fun _ => Adapter.base (Msg:=Msg) classOf) this envelope strings s
     = (Return tt, s, [AdapterSend this envelope [VArray strings] : Ev]).
Proof.
  split; [|repeat split].
  unfold Adapter.emote, invoke.
  now destruct (send_of (classOf this) this envelope [VArray strings] s).
Qed.

End Outbound.
End BaseAdapter.

(** On the installation: [emote] on the [shell] adapter reaches the [send]
    of its class with one array. *)
Example emote_on_shell :
  Adapter.emote (Msg:=Demo.Inbound) Demo.classOf "shell" Demo.toShell [VString "waves"; VString "grins"]
    (Demo.robot [])
  = (Return tt,
     mkState "botname" [] {[ "shell" := "shell" ]} []
       [("shell", [VArray [VString "waves"; VString "grins"]])],
     [AdapterSend "shell" Demo.toShell [VArray [VString "waves"; VString "grins"]]]).
Proof. reflexivity. Qed.

Example emote_on_plain_adapter :
  Adapter.emote (Msg:=Demo.Inbound) Demo.classOf "irc" Demo.toShell
    [VString "waves"] (Demo.robot [])
  = (Return tt, Demo.robot [],
     [AdapterSend "irc" Demo.toShell [VArray [VString "waves"]]]).
Proof. reflexivity. Qed.

(** * Further properties *)

(** ** Dispatch, continued *)

Module DispatchMore.
Section Receive.
Context {L A W O U R Msg : Type}.

Local Abbreviation St := (State L A W).
Local Abbreviation Ev := (Event L A W U R Msg).
Local Abbreviation Code := (M St Ev).
Local Abbreviation Callback := (ResponseCallback L A W U R Msg).

Variable Listener_call :
  L -> Msg -> A -> Nullable Callback -> T St unit.
Variable TextListener_new : Pattern -> O -> Callback -> L.

(** The loop up to the first listener that throws. *)
Lemma forOf_until_throw (body : L -> Code unit) (ev : L -> Ev)
  (ls : list L) (k : nat) (l : L) (e : JS.Error) :
  (forall j x, j < k -> ls !! j = Some x ->
     forall s, pluginListeners s = ls ->
       exists s', body x s = (Return tt, s', [ev x]) /\ pluginListeners s' = ls) ->
  ls !! k = Some l ->
  (forall s, pluginListeners s = ls ->
     exists s', body l s = (Throw e, s', [ev l])) ->
  forall fuel i s,
    i <= k -> pluginListeners s = ls -> k - i < fuel ->
    exists s',
      Robot.forOfListeners fuel i body s
      = Some (Throw e, s', map ev (take (S k - i) (drop i ls))).
Proof.
  intros Hbefore Hk Hthrow.
  induction fuel as [|fuel IH]; intros i s Hi Hs Hfuel; [lia|].
  cbn [Robot.forOfListeners]. rewrite Hs.
  destruct (decide (i = k)) as [->|Hne].
  - rewrite Hk. destruct (Hthrow s Hs) as (s' & Hrun). rewrite Hrun.
    exists s'. replace (S k - k) with 1 by lia.
    now rewrite (drop_S _ _ _ Hk).
  - assert (Hlt : i < k) by lia.
    destruct (lookup_lt_is_Some_2 ls i) as [x Hx];
      [apply lookup_lt_Some in Hk; lia|].
    rewrite Hx.
    destruct (Hbefore i x Hlt Hx s Hs) as (s1 & Hrun & Hs1). rewrite Hrun.
    destruct (IH (S i) s1 ltac:(lia) Hs1 ltac:(lia)) as (s2 & Hloop).
    rewrite Hloop. exists s2.
    rewrite (drop_S _ _ _ Hx).
    replace (S k - i) with (S (S k - S i)) by lia. reflexivity.
Qed.

(** X1. [receive] has no handler: when the listeners before one return
    (and leave the array alone) and that one throws, [receive] throws the
    same error to its caller, having called the listeners up to and
    including that one and none of those after it. *)
Theorem receive_stops_at_first_throw
  (msg : Msg) (adapter : A) (callback : Nullable Callback)
  (s : St) (before after : list L) (l : L) (e : JS.Error) (fuel : nat) :
  pluginListeners s = before ++ l :: after ->
  (forall x, x ∈ before ->
     forall r, pluginListeners r = pluginListeners s ->
       exists r', Listener_call x msg adapter callback r = (Return tt, r')
                  /\ pluginListeners r' = pluginListeners s) ->
  (forall r, pluginListeners r = pluginListeners s ->
     exists r', Listener_call l msg adapter callback r = (Throw e, r')) ->
  length before < fuel ->
  exists s',
    Robot.receive Listener_call fuel (Obj msg) adapter callback s
    = Some (Throw e, s',
            map (fun x => ListenerCall x msg adapter callback) (before ++ [l])).
Proof.
  intros Hs Hbefore Hthrow Hfuel. unfold Robot.receive.
  destruct (forOf_until_throw
              (fun x => invoke (ListenerCall x msg adapter callback)
                          (Listener_call x msg adapter callback))
              (fun x => ListenerCall x msg adapter callback)
              (pluginListeners s) (length before) l e)
    with (fuel := fuel) (i := 0) (s := s) as (s' & Hrun).
  - intros j x Hj Hx r Hr.
    assert (Hin : x ∈ before).
    { rewrite Hs, lookup_app_l in Hx by exact Hj.
      eapply list_elem_of_lookup_2, Hx. }
    destruct (Hbefore x Hin r Hr) as (r' & Hcall & Hr').
    exists r'. unfold invoke. now rewrite Hcall.
  - rewrite Hs. now rewrite list_lookup_middle.
  - intros r Hr. destruct (Hthrow r Hr) as (r' & Hcall).
    exists r'. unfold invoke. now rewrite Hcall.
  - lia.
  - reflexivity.
  - lia.
  - exists s'. rewrite Hrun, drop_0, Nat.sub_0_r, Hs.
    replace (before ++ l :: after) with ((before ++ [l]) ++ after)
      by (now rewrite <- app_assoc).
    rewrite take_app_length'; [reflexivity|].
    rewrite length_app. cbn. lia.
Qed.



(** X3. [hear] and [receive] together: [hear] registers one listener, built
    on the pattern as it was given, behind those already registered, and
    the next dispatch calls it last (listeners whose calls return and leave
    the array alone). *)
Theorem hear_then_receive
  (regex : Pattern) (options : O) (handler : Callback)
  (msg : Msg) (adapter : A) (callback : Nullable Callback)
  (s : St) (fuel : nat) :
  let listener := TextListener_new regex options handler in
  let s1 :=
    registered
      (logged s [mkLog debug "[Robot] creating hear listener for regex"
                   [toString regex]])
      listener in
  (forall l, l ∈ pluginListeners s ++ [listener] ->
     forall r, pluginListeners r = pluginListeners s ++ [listener] ->
       exists r', Listener_call l msg adapter callback r = (Return tt, r')
                  /\ pluginListeners r' = pluginListeners s ++ [listener]) ->
  S (length (pluginListeners s)) < fuel ->
  Robot.hear (U:=U) (R:=R) (Msg:=Msg) TextListener_new regex options handler s
  = (Return tt, s1, [])
  /\ exists s2,
       Robot.receive Listener_call fuel (Obj msg) adapter callback s1
       = Some (Return tt, s2,
               map (fun l => ListenerCall l msg adapter callback)
                 (pluginListeners s)
               ++ [ListenerCall listener msg adapter callback]).
Proof.
  intros listener s1 Hkeep Hfuel. split; [reflexivity|].
  unfold Robot.receive.
  destruct (DispatchFacts.forOf_stable
              (fun l => invoke (ListenerCall l msg adapter callback)
                          (Listener_call l msg adapter callback))
              (fun l => ListenerCall l msg adapter callback)
              (pluginListeners s ++ [listener]))
    with (fuel := fuel) (i := 0) (s := s1)
    as (s2 & Hrun & _).
  - intros l Hl r Hr. destruct (Hkeep l Hl r Hr) as (r' & Hcall & Hr').
    exists r'. unfold invoke. now rewrite Hcall.
  - reflexivity.
  - rewrite length_app. cbn. lia.
  - exists s2. now rewrite Hrun, drop_0, map_app.
Qed.

End Receive.
End DispatchMore.

(** ** Outbound routing, continued *)

Module RoutingMore.
Section SendReply.
Context {L A W U R Msg : Type}.
Context `{!ToString U, !ToString R, !Named R}.

Local Abbreviation St := (State L A W).
Local Abbreviation Ev := (Event L A W U R Msg).

Variable classOf : A -> AdapterClass L A W U R.

(** X4. [send] with a registered adapter: after the line in the log, one
    call of that adapter's [send], with the envelope and the messages as
    one array; what the adapter's [send] returns or throws is what [send]
    returns or throws, and the state is the one the adapter leaves. *)
Theorem send_reaches_registered_adapter
  (envelope : Envelope U R) (messages : Messages) (s s' : St) (adapter : A)
  (outcome : Result unit) :
  let strings := [VArray (map VString (Robot.asArray messages))] in
  adapters s !! adapterName envelope = Some adapter ->
  send_of (classOf adapter) adapter envelope strings
    (logged s [mkLog debug (Robot.sendLine envelope messages) []])
  = (outcome, s') ->
  Robot.send (Msg:=Msg) classOf envelope messages s
  = (outcome, s', [AdapterSend adapter envelope strings]).
Proof.
  intros strings Hfound Hsend.
  unfold Robot.send, bind, Robot.log, Robot.get, getProperty, invoke.
  cbn [adapters logged]. rewrite Hfound. subst strings.
  rewrite Hsend.
  now destruct outcome.
Qed.

(** X5. [reply] with a registered adapter: likewise, one call of that
    adapter's [reply]. *)
Theorem reply_reaches_registered_adapter
  (envelope : Envelope U R) (messages : Messages) (s s' : St) (adapter : A)
  (outcome : Result unit) :
  let strings := [VArray (map VString (Robot.asArray messages))] in
  adapters s !! adapterName envelope = Some adapter ->
  reply_of (classOf adapter) adapter envelope strings
    (logged s [mkLog debug (Robot.replyLine envelope messages) []])
  = (outcome, s') ->
  Robot.reply (Msg:=Msg) classOf envelope messages s
  = (outcome, s', [AdapterReply adapter envelope strings]).
Proof.
  intros strings Hfound Hreply.
  unfold Robot.reply, bind, Robot.log, Robot.get, getProperty, invoke.
  cbn [adapters logged]. rewrite Hfound. subst strings.
  rewrite Hreply.
  now destruct outcome.
Qed.

(** X6. A bare string and the array that holds just that string are the
    same to [send] and to [reply]: the same line in the log, the same call,
    the same outcome. *)
Theorem single_message_is_one_element_array
  (envelope : Envelope U R) (message : string) (s : St) :
  Robot.send (Msg:=Msg) classOf envelope (Single message) s
  = Robot.send (Msg:=Msg) classOf envelope (Array [message]) s
  /\ Robot.reply (Msg:=Msg) classOf envelope (Single message) s
     = Robot.reply (Msg:=Msg) classOf envelope (Array [message]) s.
Proof. split; reflexivity. Qed.

End SendReply.
End RoutingMore.

(** ** Patterns registered by [respond], continued *)

Module RespondMore.
Section Respond.
Context {L A W O U R Msg : Type}.

Local Abbreviation St := (State L A W).
Local Abbreviation Callback := (ResponseCallback L A W U R Msg).

Variable TextListener_new : Pattern -> O -> Callback -> L.
Variable accepts : string -> string -> bool.

(** X7. When the constructor rejects the wrapped pattern, [respond] throws
    its error and registers no listener: the array of listeners and the
    registry are as before, and the log holds the line of [respond] and the
    warnings, if any. *)
Theorem respond_rejected_registers_nothing
  (r : JS.RegExp) (options : O) (callback : Callback) (s : St) :
  let pattern := Robot.wrapped (name s) (JS.source r) in
  let modifiers := Robot.modifiersFor r in
  JS.validFlags (JS.flags r) = true ->
  accepts pattern modifiers = false ->
  Robot.respond (U:=U) (R:=R) (Msg:=Msg) TextListener_new accepts (PRegExp r)
    options callback s
  = (Throw (JS.SyntaxError
              ("Invalid regular expression: /" +:+ pattern +:+ "/" +:+ modifiers)),
     logged s
       (mkLog debug "[Robot] creating respond listener for regex"
          [JS.RegExp_toString r]
        :: Robot.anchorWarnings r),
     []).
Proof.
  intros pattern modifiers Hfl Hno.
  unfold Robot.respond, bind at 1 2. unfold Robot.log at 1.
  rewrite (PatternFacts.respondPattern_regexp accepts r _ Hfl). cbn [name logged].
  fold pattern modifiers. rewrite Hno.
  now rewrite PatternFacts.logged_logged.
Qed.

End Respond.
End RespondMore.

(** The installation, continued. *)

Lemma receive_stops_at_first_throw_witness :
  let s :=
    Demo.robot [Demo.Made (PString "ping"); Demo.Faulty; Demo.Made (PString "pong")] in
  exists s',
    Robot.receive Samples.brittle 3 (Obj Demo.hello) "shell" null s
    = Some (Throw (JS.Err "plugin failure"), s',
            [ListenerCall (Demo.Made (PString "ping")) Demo.hello "shell" null;
             ListenerCall Demo.Faulty Demo.hello "shell" null]).
Proof.
  intros s.
  assert (Hs : pluginListeners s
               = [Demo.Made (PString "ping")] ++ Demo.Faulty
                 :: [Demo.Made (PString "pong")]) by reflexivity.
  assert (Hbefore : forall x, x ∈ [Demo.Made (PString "ping")] ->
            forall r, pluginListeners r = pluginListeners s ->
              exists r',
                Samples.brittle x Demo.hello "shell" null r = (Return tt, r')
                /\ pluginListeners r' = pluginListeners s).
  { intros x Hx r Hr. apply list_elem_of_singleton in Hx as ->.
    exists r. split; [reflexivity|exact Hr]. }
  assert (Hthrow : forall r, pluginListeners r = pluginListeners s ->
            exists r',
              Samples.brittle Demo.Faulty Demo.hello "shell" null r
              = (Throw (JS.Err "plugin failure"), r')).
  { intros r Hr. exists r. reflexivity. }
  assert (Hfuel : length [Demo.Made (PString "ping")] < 3) by (cbn; lia).
  exact (DispatchMore.receive_stops_at_first_throw Samples.brittle Demo.hello
           "shell" null s [Demo.Made (PString "ping")]
           [Demo.Made (PString "pong")] Demo.Faulty (JS.Err "plugin failure") 3
           Hs Hbefore Hthrow Hfuel).
Defined.


(** What the loop did there: the listener registered during the dispatch
    was called after the one that registered it. *)
Example careful_registrar_run :
  Robot.receive Samples.careful 3 (Obj Demo.hello) "shell" null
    (Demo.robot [Demo.Registrar])
  = Some (Return tt,
          registered
            (logged (Demo.robot [Demo.Registrar])
               [mkLog debug "[Robot] creating hear listener for regex" ["late"]])
            (Demo.Made (PString "late")),
          [ListenerCall Demo.Registrar Demo.hello "shell" null;
           ListenerCall (Demo.Made (PString "late")) Demo.hello "shell" null]).
Proof. reflexivity. Qed.

Lemma hear_then_receive_witness :
  let s := Demo.robot [Demo.Made (PString "ping")] in
  let s1 :=
    registered
      (logged s [mkLog debug "[Robot] creating hear listener for regex" ["/pong/i"]])
      (Demo.Made (PRegExp (JS.mkRegExp "pong" "i"))) in
  Robot.hear (U:=string) (R:=string) (Msg:=Demo.Inbound) Demo.TextListener_new
    (PRegExp (JS.mkRegExp "pong" "i")) tt Demo.quiet s
  = (Return tt, s1, [])
  /\ exists s2,
       Robot.receive Demo.call 3 (Obj Demo.hello) "shell" null s1
       = Some (Return tt, s2,
               [ListenerCall (Demo.Made (PString "ping")) Demo.hello "shell" null;
                ListenerCall (Demo.Made (PRegExp (JS.mkRegExp "pong" "i")))
                  Demo.hello "shell" null]).
Proof.
  intros s s1.
  assert (Hkeep : forall l,
            l ∈ pluginListeners s ++ [Demo.Made (PRegExp (JS.mkRegExp "pong" "i"))] ->
            forall r,
              pluginListeners r
              = pluginListeners s ++ [Demo.Made (PRegExp (JS.mkRegExp "pong" "i"))] ->
              exists r',
                Demo.call l Demo.hello "shell" null r = (Return tt, r')
                /\ pluginListeners r'
                   = pluginListeners s ++ [Demo.Made (PRegExp (JS.mkRegExp "pong" "i"))]).
  { intros l Hl r Hr. exists r. split; [|exact Hr].
    apply elem_of_cons in Hl as [->|Hl]; [reflexivity|].
    apply list_elem_of_singleton in Hl as ->. reflexivity. }
  assert (Hfuel : S (length (pluginListeners s)) < 3) by (cbn; lia).
  exact (DispatchMore.hear_then_receive Demo.call Demo.TextListener_new
           (PRegExp (JS.mkRegExp "pong" "i")) tt Demo.quiet Demo.hello "shell"
           null s 3 Hkeep Hfuel).
Defined.

Lemma send_reaches_registered_adapter_witness :
  let s := Demo.robot [] in
  let s' :=
    mkState "botname" [] {[ "shell" := "shell" ]}
      [mkLog debug "[Robot] Sending in general via shell: hi,there" []]
      [("shell", [VArray [VString "hi"; VString "there"]])] in
  adapters s !! adapterName Demo.toShell = Some "shell"
  /\ Robot.send (Msg:=Demo.Inbound) Demo.classOf Demo.toShell
       (Array ["hi"; "there"]) s
     = (Return tt, s',
        [AdapterSend "shell" Demo.toShell [VArray [VString "hi"; VString "there"]]]).
Proof.
  intros s s'.
  assert (Hfound : adapters s !! adapterName Demo.toShell = Some "shell")
    by reflexivity.
  split; [exact Hfound|].
  exact (RoutingMore.send_reaches_registered_adapter (Msg:=Demo.Inbound)
           Demo.classOf Demo.toShell (Array ["hi"; "there"]) s s' "shell"
           (Return tt) Hfound eq_refl).
Defined.

Lemma reply_reaches_registered_adapter_witness :
  let s := Demo.robot [] in
  let s' :=
    logged s
      [mkLog debug "[Robot] Attempting to reply to alice in #general, message: hi" []] in
  adapters s !! adapterName Demo.toShell = Some "shell"
  /\ Robot.reply (Msg:=Demo.Inbound) Samples.offlineClass Demo.toShell
       (Single "hi") s
     = (Throw (JS.Err "socket closed"), s',
        [AdapterReply "shell" Demo.toShell [VArray [VString "hi"]]]).
Proof.
  intros s s'.
  assert (Hfound : adapters s !! adapterName Demo.toShell = Some "shell")
    by reflexivity.
  split; [exact Hfound|].
  exact (RoutingMore.reply_reaches_registered_adapter (Msg:=Demo.Inbound)
           Samples.offlineClass Demo.toShell (Single "hi") s s' "shell"
           (Throw (JS.Err "socket closed")) Hfound eq_refl).
Defined.

Lemma respond_rejected_registers_nothing_witness :
  let r := JS.mkRegExp "ping" "u" in
  let s := Demo.robot [Demo.Made (PString "old")] in
  JS.validFlags (JS.flags r) = true
  /\ Samples.rejects (Robot.wrapped (name s) (JS.source r)) (Robot.modifiersFor r)
     = false
  /\ Robot.respond (U:=string) (R:=string) (Msg:=Demo.Inbound)
       Demo.TextListener_new Samples.rejects (PRegExp r) tt Demo.quiet s
     = (Throw (JS.SyntaxError
                 "Invalid regular expression: /^\s*[@]*botname[:,]?\s*(?:ping)/u"),
        logged s
          [mkLog debug "[Robot] creating respond listener for regex" ["/ping/u"]],
        []).
Proof.
  intros r s.
  assert (Hfl : JS.validFlags (JS.flags r) = true) by reflexivity.
  assert (Hno : Samples.rejects (Robot.wrapped (name s) (JS.source r))
                  (Robot.modifiersFor r) = false) by reflexivity.
  split; [exact Hfl|]. split; [exact Hno|].
  exact (RespondMore.respond_rejected_registers_nothing (U:=string) (R:=string)
           (Msg:=Demo.Inbound) Demo.TextListener_new Samples.rejects r tt
           Demo.quiet s Hfl Hno).
Defined.

(** ** The help of a script *)

Module HelpFacts.

Lemma app_cons (c : ascii) (a b : string) :
  String c a +:+ b = String c (a +:+ b).
Proof. reflexivity. Qed.

Lemma app_empty (b : string) : EmptyString +:+ b = b.
Proof. reflexivity. Qed.

Lemma string_app_assoc (a b c : string) : (a +:+ b) +:+ c = a +:+ (b +:+ c).
Proof.
  induction a as [|x a IH]; [reflexivity|].
  now rewrite !app_cons, IH.
Qed.

Lemma afterPrefix_spec (p s rest : string) :
  JSText.afterPrefix p s = Some rest -> s = p +:+ rest.
Proof.
  revert s. induction p as [|a p IH]; intros s; cbn.
  - now intros [= ->].
  - destruct s as [|b s]; [discriminate|].
    destruct (Ascii.eqb a b) eqn:E; [|discriminate].
    apply Ascii.eqb_eq in E. subst b. intros H. now rewrite (IH _ H).
Qed.

Lemma afterPrefix_app (p rest : string) :
  JSText.afterPrefix p (p +:+ rest) = Some rest.
Proof.
  induction p as [|a p IH]; [reflexivity|].
  rewrite app_cons. cbn [JSText.afterPrefix]. now rewrite Ascii.eqb_refl.
Qed.

Lemma cutAtFirst_spec (p s before rest : string) :
  JSText.cutAtFirst p s = Some (before, rest) -> s = before +:+ p +:+ rest.
Proof.
  revert before. induction s as [|c s IH]; intros before; cbn.
  - destruct (JSText.afterPrefix p EmptyString) as [r|] eqn:E; [|discriminate].
    intros [= <- <-]. rewrite app_empty. now apply afterPrefix_spec.
  - destruct (JSText.afterPrefix p (String c s)) as [r|] eqn:E.
    + intros [= <- <-]. rewrite app_empty. now apply afterPrefix_spec.
    + destruct (JSText.cutAtFirst p s) as [[b r]|]; [|discriminate].
      intros [= <- <-]. now rewrite app_cons, (IH b eq_refl).
Qed.

Lemma cutAtFirst_skip (p : string) (c : ascii) (s : string) :
  JSText.afterPrefix p (String c s) = None ->
  JSText.cutAtFirst p (String c s)
  = match JSText.cutAtFirst p s with
    | Some (before, rest) => Some (String c before, rest)
    | None => None
    end.
Proof. intros H. cbn [JSText.cutAtFirst]. now rewrite H. Qed.

Lemma cutAtFirst_here (p rest : string) :
  JSText.cutAtFirst p (p +:+ rest) = Some (EmptyString, rest).
Proof.
  destruct (p +:+ rest) eqn:E; cbn [JSText.cutAtFirst];
    now rewrite <- E, afterPrefix_app.
Qed.

(** An occurrence is found. *)
Lemma cutAtFirst_occurs (p before rest : string) :
  is_Some (JSText.cutAtFirst p (before +:+ p +:+ rest)).
Proof.
  induction before as [|c before IH].
  - rewrite app_empty.
    destruct (p +:+ rest) eqn:E; cbn [JSText.cutAtFirst];
      rewrite <- E, afterPrefix_app; eauto.
  - rewrite app_cons. cbn [JSText.cutAtFirst].
    destruct (JSText.afterPrefix p _); [eauto|].
    destruct IH as [[b r] ->]. eauto.
Qed.

(** What does not occur in a text does not occur inside a longer pattern
    either. *)
Lemma cutAtFirst_longer (left p right s : string) :
  JSText.cutAtFirst p s = None ->
  JSText.cutAtFirst (left +:+ p +:+ right) s = None.
Proof.
  intros Hnone.
  destruct (JSText.cutAtFirst (left +:+ p +:+ right) s) as [[b r]|] eqn:E;
    [|reflexivity].
  apply cutAtFirst_spec in E.
  pose proof (cutAtFirst_occurs p (b +:+ left) (right +:+ r)) as [x Hx].
  assert (Heq : (b +:+ left) +:+ p +:+ (right +:+ r) = s)
    by (rewrite E, ?string_app_assoc; reflexivity).
  rewrite Heq in Hx. congruence.
Qed.

Lemma replace_absent (p template s : string) :
  JSText.cutAtFirst p s = None -> JSText.replace p template s = s.
Proof. unfold JSText.replace. now intros ->. Qed.

(** A replacement that begins with [@] leaves no text empty. *)
Lemma replace_nonempty (p botname s : string) :
  s <> EmptyString ->
  JSText.replace p ("@" +:+ botname) s <> EmptyString.
Proof.
  intros Hs. unfold JSText.replace.
  destruct (JSText.cutAtFirst p s) as [[before rest]|]; [|exact Hs].
  destruct before; [rewrite app_empty|]; rewrite !app_cons; discriminate.
Qed.

Lemma mentionBot_nonempty (botname s : string) :
  s <> EmptyString -> Help.mentionBot botname s <> EmptyString.
Proof.
  intros Hs. unfold Help.mentionBot. now do 4 apply replace_nonempty.
Qed.

Lemma sections_truthy (k : string) :
  k ∈ Help.HUBOT_DOCUMENTATION_SECTIONS -> JS.truthy k = true.
Proof.
  unfold Help.HUBOT_DOCUMENTATION_SECTIONS. intros H.
  repeat (apply elem_of_cons in H as [->|H]; [reflexivity|]).
  now apply elem_of_nil in H.
Qed.

Lemma sound_start : Help.sound (∅, None).
Proof.
  split; [|split]; cbn.
  - intros k [x Hx]. now rewrite lookup_empty in Hx.
  - discriminate.
  - intros k kept text Hk. now rewrite lookup_empty in Hk.
Qed.

Lemma line_sound (botname : string) (progress : Help.Progress) (text : string) :
  Help.sound progress ->
  exists progress', Help.line botname progress text = Return progress'
                    /\ Help.sound progress'.
Proof.
  destruct progress as [doc current]. intros (Hkeys & Hcurrent & Hkept).
  cbn in Hkeys, Hcurrent, Hkept. unfold Help.line.
  destruct (Help.cleaned text) as [c|].
  2:{ eexists. split; [reflexivity|]. split; [|split]; cbn; try discriminate; eauto. }
  destruct (String.eqb c EmptyString) eqn:Hempty.
  { eexists. split; [reflexivity|]. split; [|split]; cbn; try discriminate; eauto. }
  apply String.eqb_neq in Hempty.
  destruct (bool_decide (Help.sectionNamed c ∈ Help.HUBOT_DOCUMENTATION_SECTIONS))
    eqn:Hheading.
  { apply bool_decide_eq_true in Hheading.
    eexists. split; [reflexivity|]. split; [|split]; cbn.
    - intros k [x Hx]. destruct (decide (Help.sectionNamed c = k)) as [<-|Hne];
        [exact Hheading|].
      rewrite lookup_insert_ne in Hx by exact Hne. eauto.
    - intros section [= <-]. rewrite lookup_insert_eq. eauto.
    - intros k kept t Hk Ht.
      destruct (decide (Help.sectionNamed c = k)) as [<-|Hne].
      + rewrite lookup_insert_eq in Hk. injection Hk as <-.
        now apply elem_of_nil in Ht.
      + rewrite lookup_insert_ne in Hk by exact Hne. eauto. }
  destruct current as [section|].
  2:{ eexists. split; [reflexivity|]. split; [|split]; cbn; try discriminate; eauto. }
  destruct (Hcurrent section eq_refl) as [kept Hsection].
  rewrite (sections_truthy section) by eauto. rewrite Hsection.
  eexists. split; [reflexivity|]. split; [|split]; cbn.
  - intros k [x Hx]. destruct (decide (section = k)) as [<-|Hne]; [eauto|].
    rewrite lookup_insert_ne in Hx by exact Hne. eauto.
  - intros section' [= <-]. rewrite lookup_insert_eq. eauto.
  - intros k kept' t Hk Ht. destruct (decide (section = k)) as [<-|Hne].
    + rewrite lookup_insert_eq in Hk. injection Hk as <-.
      apply elem_of_app in Ht as [Ht|Ht]; [eauto|].
      apply list_elem_of_singleton in Ht as ->.
      destruct (String.eqb section "commands"); [|exact Hempty].
      now apply mentionBot_nonempty.
    + rewrite lookup_insert_ne in Hk by exact Hne. eauto.
Qed.

Lemma lines_sound (botname : string) (texts : list string) :
  forall progress,
    Help.sound progress ->
    exists progress', Help.lines botname progress texts = Return progress'
                      /\ Help.sound progress'.
Proof.
  induction texts as [|text texts IH]; intros progress Hsound; cbn.
  - eauto.
  - destruct (line_sound botname progress text Hsound) as (p1 & -> & Hp1).
    now apply IH.
Qed.

Lemma lines_app (botname : string) (first second : list string) :
  forall progress,
    Help.lines botname progress (first ++ second)
    = match Help.lines botname progress first with
      | Return progress' => Help.lines botname progress' second
      | Throw e => Throw e
      end.
Proof.
  induction first as [|text first IH]; intros progress; cbn; [reflexivity|].
  destruct (Help.line botname progress text); [apply IH|reflexivity].
Qed.

(** The lines of a text that ends with a line break and one more line. *)
Lemma split_last_line (body last : string) :
  JS.split (ascii_of_nat 10) last = [last] ->
  JS.split (ascii_of_nat 10) (body +:+ String (ascii_of_nat 10) last)
  = JS.split (ascii_of_nat 10) body ++ [last].
Proof. intros Hlast. now rewrite JSFacts.split_app, Hlast. Qed.

End HelpFacts.

Module HelpProperties.
Section ParseHelp.
Context {L A W U R Msg : Type}.

Local Abbreviation St := (State L A W).

Variable readFileSync : string -> Result string.

(** X8. [parseHelp] on a file that can be read returns, whatever the text
    of the file: the [push] always finds the array of the current section.
    The robot is left as it was, and the keys of the result are among the
    ten section names. *)
Theorem parseHelp_returns_documented_sections
  (path body : string) (s : St) :
  readFileSync path = Return body ->
  exists scriptDocumentation,
    Help.parseHelp (U:=U) (R:=R) (Msg:=Msg) readFileSync path s
    = (Return scriptDocumentation, s, [])
    /\ forall k, is_Some (scriptDocumentation !! k) ->
                 k ∈ Help.HUBOT_DOCUMENTATION_SECTIONS.
Proof.
  intros Hread. unfold Help.parseHelp, Help.ofBody. rewrite Hread.
  destruct (HelpFacts.lines_sound (name s)
              (JS.split (ascii_of_nat 10) body) (∅, None) HelpFacts.sound_start)
    as ([doc current] & -> & Hkeys & _).
  exists doc. split; [reflexivity|exact Hkeys].
Qed.

End ParseHelp.

(** X9. No line that [parseHelp] keeps is empty, in any section, whatever
    the name of the bot. *)
Theorem parseHelp_keeps_no_empty_line (botname body : string) :
  exists scriptDocumentation,
    Help.ofBody botname body = Return scriptDocumentation
    /\ forall k kept text,
         scriptDocumentation !! k = Some kept -> text ∈ kept ->
         text <> EmptyString.
Proof.
  unfold Help.ofBody.
  destruct (HelpFacts.lines_sound botname
              (JS.split (ascii_of_nat 10) body) (∅, None) HelpFacts.sound_start)
    as ([doc current] & -> & _ & _ & Hkept).
  exists doc. split; [reflexivity|exact Hkept].
Qed.

(** X10. A heading opens its section afresh: after a text that ends with
    the heading of a section, that section is empty, whatever was kept
    under the same heading earlier in the text. *)
Theorem heading_opens_section_afresh (botname body heading section : string) :
  JS.split (ascii_of_nat 10) heading = [heading] ->
  Help.headingOf heading = Some section ->
  exists scriptDocumentation,
    Help.ofBody botname (body +:+ String (ascii_of_nat 10) heading)
    = Return scriptDocumentation
    /\ scriptDocumentation !! section = Some [].
Proof.
  intros Hone Hheading. unfold Help.ofBody.
  rewrite (HelpFacts.split_last_line body heading Hone), HelpFacts.lines_app.
  destruct (HelpFacts.lines_sound botname
              (JS.split (ascii_of_nat 10) body) (∅, None) HelpFacts.sound_start)
    as ([doc current] & -> & _).
  cbn [Help.lines]. unfold Help.line. unfold Help.headingOf in Hheading.
  destruct (Help.cleaned heading) as [c|]; [|discriminate].
  destruct (String.eqb c EmptyString); [discriminate|].
  destruct (bool_decide (Help.sectionNamed c ∈ Help.HUBOT_DOCUMENTATION_SECTIONS));
    [|discriminate].
  injection Hheading as <-. eexists. split; [reflexivity|].
  apply lookup_insert_eq.
Qed.


(** X12. In the [commands] section a line in which [bot] does not occur is
    kept as it was written, whatever the name of the bot: each of the four
    replacements looks for a text that holds [bot]. *)
Theorem command_without_bot_is_kept_as_written
  (botname text cleanedLine : string)
  (scriptDocumentation : gmap string (list string)) (kept : list string) :
  Help.cleaned text = Some cleanedLine ->
  cleanedLine <> EmptyString ->
  Help.headingOf text = None ->
  JSText.cutAtFirst "bot" cleanedLine = None ->
  scriptDocumentation !! "commands" = Some kept ->
  Help.line botname (scriptDocumentation, Some "commands") text
  = Return (<["commands" := kept ++ [cleanedLine]]> scriptDocumentation,
            Some "commands").
Proof.
  intros Hcleaned Hne Hheading Habsent Hkept.
  unfold Help.line. unfold Help.headingOf in Hheading.
  rewrite Hcleaned in Hheading |- *.
  apply String.eqb_neq in Hne. rewrite Hne in Hheading |- *.
  destruct (bool_decide (Help.sectionNamed cleanedLine
                         ∈ Help.HUBOT_DOCUMENTATION_SECTIONS));
    [discriminate|].
  cbn [JS.truthy String.eqb Ascii.eqb Bool.eqb]. rewrite Hkept.
  assert (Hsame : Help.mentionBot botname cleanedLine = cleanedLine).
  { unfold Help.mentionBot. cbv zeta.
    rewrite (HelpFacts.replace_absent "@hubot")
      by apply (HelpFacts.cutAtFirst_longer "@hu" "bot" EmptyString), Habsent.
    rewrite (HelpFacts.replace_absent "hubot")
      by apply (HelpFacts.cutAtFirst_longer "hu" "bot" EmptyString), Habsent.
    rewrite (HelpFacts.replace_absent "@bot")
      by apply (HelpFacts.cutAtFirst_longer "@" "bot" EmptyString), Habsent.
    now rewrite (HelpFacts.replace_absent "bot"). }
  now rewrite Hsame.
Qed.

(** A template without a dollar sign is its own substitution. *)
Lemma substitution_plain (template matched before rest : string) :
  existsb (Ascii.eqb "$") (list_ascii_of_string template) = false ->
  JSText.substitution template matched before rest = template.
Proof.
  induction template as [|c template IH]; [reflexivity|].
  cbn [list_ascii_of_string existsb JSText.substitution].
  intros H. apply orb_false_elim in H as [Hc Htemplate].
  rewrite Ascii.eqb_sym, Hc. now rewrite IH.
Qed.

(** X13. A bot whose name begins with [bot] is not named properly in the
    [commands] section: the third and the fourth replacement find [bot]
    in the name the second one has just put in. For the name [bot] + [a]
    (no dollar sign in it), a line [hubot] + [rest] becomes
    [@@bot] + [a] + [a] + [a] + [rest]. *)
Theorem bot_in_name_is_replaced_again (a rest : string) :
  existsb (Ascii.eqb "$") (list_ascii_of_string a) = false ->
  JSText.cutAtFirst "@hubot" rest = None ->
  Help.mentionBot ("bot" +:+ a) ("hubot" +:+ rest)
  = "@@bot" +:+ a +:+ a +:+ a +:+ rest.
Proof.
  intros Hplain Habsent.
  assert (Htemplate : forall matched before after,
            JSText.substitution ("@" +:+ "bot" +:+ a) matched before after
            = "@bot" +:+ a).
  { intros. apply substitution_plain. cbn. exact Hplain. }
  unfold Help.mentionBot. cbv zeta.
  assert (H1 : JSText.replace "@hubot" ("@" +:+ "bot" +:+ a) ("hubot" +:+ rest)
               = "hubot" +:+ rest).
  { apply HelpFacts.replace_absent.
    change ("hubot" +:+ rest)
      with (String "h" (String "u" (String "b" (String "o" (String "t" rest))))).
    rewrite !HelpFacts.cutAtFirst_skip by reflexivity. now rewrite Habsent. }
  rewrite H1.
  assert (H2 : JSText.replace "hubot" ("@" +:+ "bot" +:+ a) ("hubot" +:+ rest)
               = "@bot" +:+ a +:+ rest).
  { unfold JSText.replace. rewrite HelpFacts.cutAtFirst_here.
    now rewrite Htemplate, HelpFacts.app_empty, HelpFacts.string_app_assoc. }
  rewrite H2.
  assert (H3 : JSText.replace "@bot" ("@" +:+ "bot" +:+ a) ("@bot" +:+ a +:+ rest)
               = "@bot" +:+ a +:+ a +:+ rest).
  { unfold JSText.replace. rewrite HelpFacts.cutAtFirst_here.
    now rewrite Htemplate, HelpFacts.app_empty, HelpFacts.string_app_assoc. }
  rewrite H3.
  unfold JSText.replace.
  change ("@bot" +:+ a +:+ a +:+ rest)
    with (String "@" ("bot" +:+ a +:+ a +:+ rest)).
  rewrite HelpFacts.cutAtFirst_skip by reflexivity.
  rewrite HelpFacts.cutAtFirst_here, Htemplate. reflexivity.
Qed.

End HelpProperties.

(** The installation reads the help of a script. *)

Lemma parseHelp_returns_documented_sections_witness :
  Samples.readFileSync "scripts/ping.js" = Return Samples.pingScript
  /\ exists scriptDocumentation,
       Help.parseHelp (U:=string) (R:=string) (Msg:=Demo.Inbound)
         Samples.readFileSync "scripts/ping.js" (Demo.robot [])
       = (Return scriptDocumentation, Demo.robot [], [])
       /\ forall k, is_Some (scriptDocumentation !! k) ->
                    k ∈ Help.HUBOT_DOCUMENTATION_SECTIONS.
Proof.
  assert (Hread : Samples.readFileSync "scripts/ping.js" = Return Samples.pingScript)
    by reflexivity.
  split; [exact Hread|].
  exact (HelpProperties.parseHelp_returns_documented_sections (U:=string) (R:=string)
           (Msg:=Demo.Inbound) Samples.readFileSync "scripts/ping.js"
           Samples.pingScript (Demo.robot []) Hread).
Defined.

(** What it reads there, for a bot named [val]. *)
Example help_of_ping_script :
  Help.ofBody "val" Samples.pingScript
  = Return (<["description" := ["Answers a ping"]]>
              (<["commands" := ["@val ping - answers pong";
                                "status - says how things are"]]> ∅)).
Proof. vm_compute. reflexivity. Qed.

Lemma heading_opens_section_afresh_witness :
  let body :=
    "// Commands:" +:+ Samples.newline +:+ "//   hubot ping - answers pong" in
  JS.split (ascii_of_nat 10) "// Commands:" = ["// Commands:"]
  /\ Help.headingOf "// Commands:" = Some "commands"
  /\ exists scriptDocumentation,
       Help.ofBody "val" (body +:+ String (ascii_of_nat 10) "// Commands:")
       = Return scriptDocumentation
       /\ scriptDocumentation !! "commands" = Some [].
Proof.
  intros body.
  assert (Hone : JS.split (ascii_of_nat 10) "// Commands:" = ["// Commands:"])
    by reflexivity.
  assert (Hheading : Help.headingOf "// Commands:" = Some "commands")
    by (vm_compute; reflexivity).
  split; [exact Hone|]. split; [exact Hheading|].
  exact (HelpProperties.heading_opens_section_afresh "val" body "// Commands:"
           "commands" Hone Hheading).
Defined.


Lemma command_without_bot_is_kept_as_written_witness :
  let text := "//   status - says how things are" in
  let cleanedLine := "status - says how things are" in
  let scriptDocumentation : gmap string (list string) :=
    {[ "commands" := ["@val ping - answers pong"] ]} in
  Help.cleaned text = Some cleanedLine
  /\ Help.headingOf text = None
  /\ JSText.cutAtFirst "bot" cleanedLine = None
  /\ Help.line "val" (scriptDocumentation, Some "commands") text
     = Return (<["commands" := ["@val ping - answers pong"; cleanedLine]]>
                 scriptDocumentation,
               Some "commands").
Proof.
  intros text cleanedLine scriptDocumentation.
  assert (Hcleaned : Help.cleaned text = Some cleanedLine)
    by (vm_compute; reflexivity).
  assert (Hne : cleanedLine <> EmptyString) by discriminate.
  assert (Hheading : Help.headingOf text = None) by (vm_compute; reflexivity).
  assert (Habsent : JSText.cutAtFirst "bot" cleanedLine = None)
    by (vm_compute; reflexivity).
  assert (Hkept : scriptDocumentation !! "commands"
                  = Some ["@val ping - answers pong"]) by reflexivity.
  split; [exact Hcleaned|]. split; [exact Hheading|]. split; [exact Habsent|].
  exact (HelpProperties.command_without_bot_is_kept_as_written "val" text
           cleanedLine scriptDocumentation ["@val ping - answers pong"]
           Hcleaned Hne Hheading Habsent Hkept).
Defined.

Lemma bot_in_name_is_replaced_again_witness :
  existsb (Ascii.eqb "$") (list_ascii_of_string "name") = false
  /\ JSText.cutAtFirst "@hubot" " ping - answers pong" = None
  /\ Help.mentionBot "botname" "hubot ping - answers pong"
     = "@@botnamenamename ping - answers pong".
Proof.
  assert (Hplain : existsb (Ascii.eqb "$") (list_ascii_of_string "name") = false)
    by reflexivity.
  assert (Habsent : JSText.cutAtFirst "@hubot" " ping - answers pong" = None)
    by (vm_compute; reflexivity).
  split; [exact Hplain|]. split; [exact Habsent|].
  exact (HelpProperties.bot_in_name_is_replaced_again "name" " ping - answers pong"
           Hplain Habsent).
Defined.

(** ** The name of a plugin *)

Module PluginFacts.

Lemma app_nil_end (s : string) : s +:+ EmptyString = s.
Proof.
  induction s as [|c s IH]; [reflexivity|]. now rewrite HelpFacts.app_cons, IH.
Qed.

Lemma absent_app (sep : ascii) (a b : string) :
  existsb (Ascii.eqb sep) (list_ascii_of_string a) = false ->
  existsb (Ascii.eqb sep) (list_ascii_of_string b) = false ->
  existsb (Ascii.eqb sep) (list_ascii_of_string (a +:+ b)) = false.
Proof.
  intros Ha Hb. induction a as [|c a IH]; [exact Hb|].
  rewrite HelpFacts.app_cons. cbn [list_ascii_of_string existsb] in *.
  apply orb_false_elim in Ha as [Hc Ha]. now rewrite Hc, IH.
Qed.

(** A pattern that a text has up to some place does not need what comes
    after a character it does not hold. *)
Lemma afterPrefix_before (q s t : string) (a : ascii) :
  existsb (Ascii.eqb a) (list_ascii_of_string q) = false ->
  is_Some (JSText.afterPrefix q (s +:+ String a t)) ->
  is_Some (JSText.afterPrefix q s).
Proof.
  revert s. induction q as [|b q IH]; intros s Hq Hsome; [cbn; eauto|].
  cbn [list_ascii_of_string existsb] in Hq.
  apply orb_false_elim in Hq as [Hab Hq].
  destruct s as [|x s].
  - rewrite HelpFacts.app_empty in Hsome. cbn [JSText.afterPrefix] in Hsome.
    rewrite Ascii.eqb_sym, Hab in Hsome. now destruct Hsome.
  - rewrite HelpFacts.app_cons in Hsome. cbn [JSText.afterPrefix] in Hsome |- *.
    destruct (Ascii.eqb b x); [now apply IH|exact Hsome].
Qed.

(** The first occurrence of a pattern whose first character it holds only
    once, in a text that goes on with that character. *)
Lemma cutAtFirst_end (a : ascii) (q stem t : string) :
  existsb (Ascii.eqb a) (list_ascii_of_string q) = false ->
  JSText.cutAtFirst (String a q) stem = None ->
  JSText.cutAtFirst (String a q) (stem +:+ String a t)
  = match JSText.cutAtFirst (String a q) (String a t) with
    | Some (before, rest) => Some (stem +:+ before, rest)
    | None => None
    end.
Proof.
  intros Hq. induction stem as [|c stem IH]; intros Hnone.
  - rewrite HelpFacts.app_empty.
    destruct (JSText.cutAtFirst (String a q) (String a t)) as [[before rest]|];
      reflexivity.
  - assert (Hhere : JSText.afterPrefix (String a q) (String c stem) = None).
    { cbn [JSText.cutAtFirst] in Hnone.
      now destruct (JSText.afterPrefix (String a q) (String c stem)). }
    rewrite (HelpFacts.cutAtFirst_skip _ _ _ Hhere) in Hnone.
    assert (Hstem : JSText.cutAtFirst (String a q) stem = None).
    { now destruct (JSText.cutAtFirst (String a q) stem) as [[? ?]|]. }
    rewrite HelpFacts.app_cons, HelpFacts.cutAtFirst_skip.
    + rewrite (IH Hstem).
      destruct (JSText.cutAtFirst (String a q) (String a t)) as [[before rest]|];
        [now rewrite HelpFacts.app_cons|reflexivity].
    + cbn [JSText.afterPrefix] in Hhere |- *.
      destruct (Ascii.eqb a c); [|reflexivity].
      destruct (JSText.afterPrefix q (stem +:+ String a t)) as [r|] eqn:E;
        [|reflexivity].
      destruct (afterPrefix_before q stem t a Hq) as [r' Hr'];
        [rewrite E; eauto|congruence].
Qed.

Lemma last_of_path (dir file : string) :
  last (JS.split "/" (dir +:+ "/" +:+ file)) = last (JS.split "/" file).
Proof.
  change (dir +:+ "/" +:+ file) with (dir +:+ String "/" file).
  rewrite JSFacts.split_app, last_app.
  pose proof (JSFacts.split_nonempty "/" file) as Hne.
  destruct (JS.split "/" file) as [|p ps] using rev_ind; [congruence|].
  now rewrite last_snoc.
Qed.

End PluginFacts.

Module PluginProperties.

(** X14. The name of a plugin is read off what follows the last slash of
    its file name: two files of the same name in different directories are
    kept under one name. *)
Theorem pluginName_leaves_directories_out (dir other file : string) :
  Plugins.pluginName (dir +:+ "/" +:+ file)
  = Plugins.pluginName (other +:+ "/" +:+ file).
Proof.
  unfold Plugins.pluginName. now rewrite !PluginFacts.last_of_path.
Qed.

(** X15. For a script [<dir>/<stem>.js] or [<dir>/<stem>.coffee] whose stem
    holds no slash and neither [.js] nor [.coffee], the name of the plugin
    is the stem. *)
Theorem pluginName_is_the_stem (dir stem : string) :
  existsb (Ascii.eqb "/") (list_ascii_of_string stem) = false ->
  JSText.cutAtFirst ".js" stem = None ->
  JSText.cutAtFirst ".coffee" stem = None ->
  Plugins.pluginName (dir +:+ "/" +:+ stem +:+ ".js") = stem
  /\ Plugins.pluginName (dir +:+ "/" +:+ stem +:+ ".coffee") = stem.
Proof.
  intros Hslash Hjs Hcoffee. unfold Plugins.pluginName.
  rewrite !PluginFacts.last_of_path.
  rewrite !JSFacts.split_absent by (now apply PluginFacts.absent_app).
  cbn [last]. unfold JSText.replace.
  change ".js" with (String "." "js") at 1 2 3.
  rewrite !(PluginFacts.cutAtFirst_end "." "js") by (reflexivity || exact Hjs).
  split.
  - cbn [JSText.cutAtFirst JSText.afterPrefix Ascii.eqb Bool.eqb JSText.substitution].
    rewrite !HelpFacts.app_empty, !PluginFacts.app_nil_end. now rewrite Hcoffee.
  - replace (JSText.cutAtFirst (String "." "js") (String "." "coffee"))
      with (@None (string * string)) by reflexivity.
    change (String "." "coffee") with ".coffee".
    change ".coffee" with (String "." "coffee") at 1 2.
    rewrite (PluginFacts.cutAtFirst_end "." "coffee") by (reflexivity || exact Hcoffee).
    cbn [JSText.cutAtFirst JSText.afterPrefix Ascii.eqb Bool.eqb JSText.substitution].
    now rewrite !HelpFacts.app_empty, !PluginFacts.app_nil_end.
Qed.

End PluginProperties.

Lemma pluginName_is_the_stem_witness :
  existsb (Ascii.eqb "/") (list_ascii_of_string "ping") = false
  /\ JSText.cutAtFirst ".js" "ping" = None
  /\ JSText.cutAtFirst ".coffee" "ping" = None
  /\ Plugins.pluginName ("/srv/val/plugins" +:+ "/" +:+ "ping" +:+ ".js") = "ping"
  /\ Plugins.pluginName ("/srv/val/plugins" +:+ "/" +:+ "ping" +:+ ".coffee") = "ping".
Proof.
  assert (Hslash : existsb (Ascii.eqb "/") (list_ascii_of_string "ping") = false)
    by reflexivity.
  assert (Hjs : JSText.cutAtFirst ".js" "ping" = None) by reflexivity.
  assert (Hcoffee : JSText.cutAtFirst ".coffee" "ping" = None) by reflexivity.
  split; [exact Hslash|]. split; [exact Hjs|]. split; [exact Hcoffee|].
  exact (PluginProperties.pluginName_is_the_stem "/srv/val/plugins" "ping"
           Hslash Hjs Hcoffee).
Defined.

(** The first [.js] is cut, wherever it stands. *)
Example pluginName_cuts_the_first_js :
  Plugins.pluginName "plugins/my.json.js" = "myon.js".
Proof. reflexivity. Qed.

(** ** The pattern of [respond], whatever the name of the bot *)

Module LiteralFacts.
Import Regex.

Lemma list_ascii_app (a b : string) :
  list_ascii_of_string (a +:+ b) = list_ascii_of_string a ++ list_ascii_of_string b.
Proof.
  induction a as [|c a IH]; [reflexivity|].
  rewrite HelpFacts.app_cons. cbn [list_ascii_of_string]. now rewrite IH.
Qed.

Lemma escaped_char (c : ascii) :
  Robot.needsEscape c = true ->
  escape false c = Some (COne c) /\ JS.lowerChar c = c.
Proof.
  destruct c as [[] [] [] [] [] [] [] []]; intros H;
    try (vm_compute in H; discriminate H); split; reflexivity.
Qed.

Lemma plain_char (c : ascii) :
  Robot.needsEscape c = false ->
  forall fuel rest,
    tokens (S fuel) (JS.lowerChar c :: rest)
    = match tokens fuel rest with
      | Some ts => Some (TAtom (Char (JS.lowerChar c)) :: ts)
      | None => None
      end.
Proof.
  destruct c as [[] [] [] [] [] [] [] []]; intros H fuel rest;
    try (vm_compute in H; discriminate H); reflexivity.
Qed.

Lemma word_char (c : ascii) :
  isWordChar c = true ->
  forall fuel rest,
    tokens (S fuel) (c :: rest)
    = match tokens fuel rest with
      | Some ts => Some (TAtom (Char c) :: ts)
      | None => None
      end.
Proof.
  destruct c as [[] [] [] [] [] [] [] []]; intros H fuel rest;
    try (vm_compute in H; discriminate H); reflexivity.
Qed.

Lemma tokens_name (n : string) :
  forall fuel rest,
    tokens (String.length n + fuel)
      (list_ascii_of_string (JS.toLowerCase (Robot.escapeName n)) ++ rest)
    = match tokens fuel rest with
      | Some ts =>
          Some (Literal.atoms (list_ascii_of_string (JS.toLowerCase n)) ++ ts)
      | None => None
      end.
Proof.
  induction n as [|c n IH]; intros fuel rest.
  - cbn. now destruct (tokens fuel rest).
  - cbn [Robot.escapeName String.length Nat.add].
    destruct (Robot.needsEscape c) eqn:E.
    + destruct (escaped_char c E) as [Hesc Hlow].
      cbn [JS.toLowerCase list_ascii_of_string app Literal.atoms map].
      rewrite Hlow.
      change (JS.lowerChar "\") with "\"%char.
      cbn [tokens]. rewrite Hesc. cbn [itemNode]. rewrite IH.
      now destruct (tokens fuel rest).
    + cbn [JS.toLowerCase list_ascii_of_string app Literal.atoms map].
      rewrite (plain_char c E), IH. now destruct (tokens fuel rest).
Qed.

Lemma tokens_word (w : string) :
  Literal.wordy w = true ->
  forall fuel rest,
    tokens (String.length w + fuel) (list_ascii_of_string w ++ rest)
    = match tokens fuel rest with
      | Some ts => Some (Literal.atoms (list_ascii_of_string w) ++ ts)
      | None => None
      end.
Proof.
  unfold Literal.wordy.
  induction w as [|c w IH]; intros Hw fuel rest.
  - cbn. now destruct (tokens fuel rest).
  - cbn [list_ascii_of_string forallb] in Hw. apply andb_prop in Hw as [Hc Hw].
    cbn [String.length Nat.add list_ascii_of_string app Literal.atoms map].
    rewrite (word_char c Hc), (IH Hw). now destruct (tokens fuel rest).
Qed.

Lemma escaped_length (n : string) :
  String.length n
  <= length (list_ascii_of_string (JS.toLowerCase (Robot.escapeName n))).
Proof.
  induction n as [|c n IH]; [reflexivity|].
  cbn [Robot.escapeName]. destruct (Robot.needsEscape c); cbn in *; lia.
Qed.

Lemma string_list_length (w : string) :
  length (list_ascii_of_string w) = String.length w.
Proof. induction w as [|c w IH]; cbn; [reflexivity|now rewrite IH]. Qed.

Lemma tokens_prefix (fuel : nat) (rest : list ascii) :
  tokens (5 + fuel) (list_ascii_of_string "^\s*[@]*" ++ rest)
  = match tokens fuel rest with
    | Some ts =>
        Some ([ TCaret; TAtom Literal.space; TStar;
                TAtom (Class false [COne "@"]); TStar ] ++ ts)
    | None => None
    end.
Proof. cbn. now destruct (tokens fuel rest). Qed.

Lemma tokens_middle (fuel : nat) (rest : list ascii) :
  tokens (5 + fuel) (list_ascii_of_string "[:,]?\s*(?:" ++ rest)
  = match tokens fuel rest with
    | Some ts =>
        Some ([ TAtom (Class false [COne ":"; COne ","]); TQuest;
                TAtom Literal.space; TStar; TOpen ] ++ ts)
    | None => None
    end.
Proof. cbn. now destruct (tokens fuel rest). Qed.

Lemma tokens_wrapped (n w : string) :
  Literal.wordy w = true ->
  let s := list_ascii_of_string (Robot.wrapped n w) in
  tokens (S (length s)) s = Some (Literal.wrappedTokens n w).
Proof.
  intros Hw s. subst s. unfold Robot.wrapped.
  rewrite !list_ascii_app.
  set (name := list_ascii_of_string (JS.toLowerCase (Robot.escapeName n))).
  rewrite !length_app.
  pose proof (escaped_length n) as Hn. fold name in Hn.
  rewrite (string_list_length w).
  change (length (list_ascii_of_string "^\s*[@]*")) with 8.
  change (length (list_ascii_of_string "[:,]?\s*(?:")) with 11.
  change (length (list_ascii_of_string ")")) with 1.
  replace (S (8 + (length name + (11 + (String.length w + 1)))))
    with (5 + (String.length n
               + (5 + (String.length w + (2 + (9 + (length name - String.length n)))))))
    by lia.
  subst name.
  rewrite tokens_prefix, tokens_name, tokens_middle, (tokens_word w Hw).
  reflexivity.
Qed.

Lemma atoms_length (cs : list ascii) : length (Literal.atoms cs) = length cs.
Proof. apply length_map. Qed.

Lemma quantified_atoms (q : Node) (cs : list ascii) (y : Node) (rest : list Token) :
  quantified q (Literal.atoms cs ++ TAtom y :: rest)
  = Some (q, Literal.atoms cs ++ TAtom y :: rest).
Proof. destruct cs; reflexivity. Qed.

Lemma quantified_star_atoms (q : Node) (cs : list ascii) (y : Node)
  (rest : list Token) :
  quantified q (TStar :: Literal.atoms cs ++ TAtom y :: rest)
  = Some (Star q, Literal.atoms cs ++ TAtom y :: rest).
Proof. destruct cs; reflexivity. Qed.

Lemma alternative_atom (fuel : nat) (n : Node) (ts : list Token) :
  alternative (S (S fuel)) (TAtom n :: ts)
  = match quantified n ts with
    | Some (a, ts') =>
        match alternative (S fuel) ts' with
        | Some (b, ts'') => Some (Seq a b, ts'')
        | None => None
        end
    | None => None
    end.
Proof. reflexivity. Qed.

(** A run of characters, before tokens that do not begin with a
    quantifier. *)
Lemma alternative_atoms (cs : list ascii) :
  forall fuel ts tail ts'',
    (forall q, quantified q ts = Some (q, ts)) ->
    alternative (S fuel) ts = Some (tail, ts'') ->
    alternative (length cs + S fuel) (Literal.atoms cs ++ ts)
    = Some (Literal.chars cs tail, ts'').
Proof.
  induction cs as [|c cs IH]; intros fuel ts tail ts'' Hq Htail; [exact Htail|].
  assert (Hone : quantified (Char c) (Literal.atoms cs ++ ts)
                 = Some (Char c, Literal.atoms cs ++ ts)).
  { destruct cs; [apply Hq|reflexivity]. }
  cbn [length Nat.add Literal.atoms map app Literal.chars].
  fold (Literal.atoms cs).
  rewrite Nat.add_succ_r, alternative_atom, Hone.
  rewrite <- Nat.add_succ_r, (IH fuel ts tail ts'' Hq Htail). reflexivity.
Qed.

Lemma alternative_caret (fuel : nat) (n : Node) (ts : list Token) :
  alternative (S (S fuel)) (TCaret :: TAtom n :: ts)
  = match alternative (S fuel) (TAtom n :: ts) with
    | Some (b, ts'') => Some (Seq AssertStart b, ts'')
    | None => None
    end.
Proof. reflexivity. Qed.

Lemma alternative_group (fuel : nat) (ts ts' ts'' : list Token) (a b : Node) :
  alternative fuel ts = Some (a, TClose :: ts') ->
  quantified (Group a) ts' = Some (Group a, ts') ->
  alternative (S (S fuel)) ts' = Some (b, ts'') ->
  alternative (S (S (S fuel))) (TOpen :: ts) = Some (Seq (Group a) b, ts'').
Proof.
  intros Hin Hq Hrest.
  assert (Hterm : term (S (S fuel)) (TOpen :: ts) = Some (Group a, ts')).
  { cbn [term disjunction]. now rewrite Hin. }
  change (alternative (S (S (S fuel))) (TOpen :: ts))
    with (match term (S (S fuel)) (TOpen :: ts) with
          | Some (a, ts') =>
              match alternative (S (S fuel)) ts' with
              | Some (b, ts'') => Some (Seq a b, ts'')
              | None => None
              end
          | None => None
          end).
  now rewrite Hterm, Hrest.
Qed.

Lemma alternative_afterName (w : string) (fuel : nat) :
  alternative (5 + (String.length w + S fuel))
    ([ TAtom (Class false [COne ":"; COne ","]); TQuest;
       TAtom Literal.space; TStar; TOpen ]
     ++ Literal.atoms (list_ascii_of_string w) ++ [TClose])
  = Some (Literal.afterName w, []).
Proof.
  cbn [Nat.add app].
  rewrite alternative_atom. cbn [quantified].
  rewrite alternative_atom. cbn [quantified].
  rewrite (alternative_group _ _ [] [] (Literal.chars (list_ascii_of_string w) Empty)
             Empty); [reflexivity| |reflexivity|reflexivity].
  rewrite <- (string_list_length w).
  now apply alternative_atoms.
Qed.

Lemma parse_wrapped (n w : string) :
  Literal.wordy w = true ->
  parse (Robot.wrapped n w) = Some (Literal.wrappedNode n w).
Proof.
  intros Hw. unfold parse. rewrite (tokens_wrapped n w Hw).
  unfold Literal.wrappedTokens. rewrite !length_app, !atoms_length.
  rewrite !string_list_length. cbn [length].
  set (name := JS.toLowerCase n).
  replace (3 * S (5 + (String.length name + (5 + (String.length w + 1)))))
    with (5 + (String.length name
               + (4 + (String.length w
                       + S (26 + 2 * String.length name + 2 * String.length w)))))
    by lia.
  set (fuel := 26 + 2 * String.length name + 2 * String.length w).
  assert (Hall :
    alternative (4 + (String.length name + (4 + (String.length w + S fuel))))
      ([ TCaret; TAtom Literal.space; TStar;
         TAtom (Class false [COne "@"]); TStar ]
       ++ Literal.atoms (list_ascii_of_string name)
       ++ [ TAtom (Class false [COne ":"; COne ","]); TQuest;
            TAtom Literal.space; TStar; TOpen ]
       ++ Literal.atoms (list_ascii_of_string w) ++ [TClose])
    = Some (Literal.wrappedNode n w, [])).
  { cbn [Nat.add app].
    rewrite alternative_caret, alternative_atom. cbn [quantified].
    rewrite alternative_atom, quantified_star_atoms.
    rewrite <- Nat.add_succ_r, <- (string_list_length name).
    rewrite (alternative_atoms _ _ _ (Literal.afterName w) []);
      [reflexivity|intros q; reflexivity|].
    apply (alternative_afterName w fuel). }
  change (disjunction (5 + ?f) ?ts) with (disjunction (S (4 + f)) ts).
  cbn [disjunction]. now rewrite Hall.
Qed.

(** *** Matching *)

Lemma upper_lower (c : ascii) : JS.upperChar (JS.lowerChar c) = JS.upperChar c.
Proof. destruct c as [[] [] [] [] [] [] [] []]; reflexivity. Qed.

Lemma lower_upper (c : ascii) : JS.lowerChar (JS.upperChar c) = JS.lowerChar c.
Proof. destruct c as [[] [] [] [] [] [] [] []]; reflexivity. Qed.

Lemma lower_lower (c : ascii) : JS.lowerChar (JS.lowerChar c) = JS.lowerChar c.
Proof. destruct c as [[] [] [] [] [] [] [] []]; reflexivity. Qed.

Lemma upper_at (c : ascii) : JS.upperChar c = "@"%char -> c = "@"%char.
Proof.
  destruct c as [[] [] [] [] [] [] [] []]; intros H;
    try (vm_compute in H; discriminate H); reflexivity.
Qed.

(** With [i], two characters are the same when their lower cases are. *)
Lemma sameChar_lower (fl : Flags) (c x : ascii) :
  ignoreCase fl = true ->
  sameChar fl (JS.lowerChar c) x = Ascii.eqb (JS.lowerChar c) (JS.lowerChar x).
Proof.
  intros Hi. unfold sameChar, canon. rewrite Hi, upper_lower.
  destruct (Ascii.eqb (JS.lowerChar c) (JS.lowerChar x)) eqn:E.
  - apply Ascii.eqb_eq in E. apply Ascii.eqb_eq.
    now rewrite <- (upper_lower c), E, upper_lower.
  - apply Ascii.eqb_neq in E. apply Ascii.eqb_neq. intros Hup. apply E.
    now rewrite <- (lower_upper c), Hup, lower_upper.
Qed.

Lemma sameChar_exact (fl : Flags) (c x : ascii) :
  ignoreCase fl = false -> sameChar fl c x = Ascii.eqb c x.
Proof. intros Hi. unfold sameChar, canon. now rewrite Hi. Qed.

Lemma sameChar_refl (fl : Flags) (c : ascii) : sameChar fl c c = true.
Proof. apply Ascii.eqb_refl. Qed.

Lemma sameChar_at (fl : Flags) (x : ascii) :
  sameChar fl "@" x = Ascii.eqb "@" x.
Proof.
  unfold sameChar, canon. destruct (ignoreCase fl); [|reflexivity].
  change (JS.upperChar "@") with "@"%char.
  destruct (Ascii.eqb "@" x) eqn:E.
  - apply Ascii.eqb_eq in E. now subst x.
  - apply Ascii.eqb_neq in E. apply Ascii.eqb_neq. intros Hup. apply E.
    symmetry. now apply upper_at.
Qed.

(** A run of characters matches where the text has it. *)
Lemma matcher_chars (fl : Flags) (cs : list ascii) (tail : Node) (k : Cont) :
  forall prev text,
    matcher fl (Literal.chars cs tail) prev text k
    = match Literal.skip fl cs prev text with
      | Some (p, r) => matcher fl tail p r k
      | None => false
      end.
Proof.
  induction cs as [|c cs IH]; intros prev text; [reflexivity|].
  cbn [Literal.chars Literal.skip]. 
  change (matcher fl (Seq (Char c) (Literal.chars cs tail)) prev text k)
    with (match text with
          | x :: rest' =>
              sameChar fl c x && matcher fl (Literal.chars cs tail) (Some x) rest' k
          | [] => false
          end).
  destruct text as [|x text]; [reflexivity|].
  destruct (sameChar fl c x); [apply IH|reflexivity].
Qed.

(** A repetition may stop at once. *)
Lemma star_skip (fl : Flags) (a : Node) (prev : option ascii)
  (text : list ascii) (k : Cont) :
  k prev text = true -> matcher fl (Star a) prev text k = true.
Proof.
  intros Hk. cbn [matcher]. destruct (length text); [exact Hk|].
  rewrite Hk. apply orb_true_r.
Qed.

(** A repetition of a class takes a character of the class. *)
Lemma star_step (fl : Flags) (negated : bool) (items : list ClassItem)
  (prev : option ascii) (x : ascii) (text : list ascii) (k : Cont) :
  inClass fl negated items x = true ->
  matcher fl (Star (Class negated items)) (Some x) text k = true ->
  matcher fl (Star (Class negated items)) prev (x :: text) k = true.
Proof.
  intros Hin Hrest. cbn [matcher length] in *. rewrite Hin.
  replace (length text <? S (length text)) with true
    by (symmetry; apply Nat.ltb_lt; lia).
  cbn [andb]. now rewrite Hrest.
Qed.

(** A repetition of a class stops where the text has no character of the
    class. *)
Lemma star_stuck (fl : Flags) (negated : bool) (items : list ClassItem)
  (prev : option ascii) (text : list ascii) (k : Cont) :
  match text with
  | x :: _ => inClass fl negated items x = false
  | [] => True
  end ->
  matcher fl (Star (Class negated items)) prev text k = k prev text.
Proof.
  intros Hout. cbn [matcher]. destruct text as [|x text]; [reflexivity|].
  cbn [length]. now rewrite Hout.
Qed.

(** Without [m], a pattern that begins with [^] matches at the start of the
    text or nowhere. *)
Lemma search_from_start (fl : Flags) (n : Node) (text : list ascii) :
  multiline fl = false ->
  search fl (Seq AssertStart n) None text
  = matcher fl (Seq AssertStart n) None text (fun _ _ => true).
Proof.
  intros Hm.
  assert (Hlater : forall rest p, search fl (Seq AssertStart n) (Some p) rest = false).
  { induction rest as [|x rest IH]; intros p; cbn [search matcher];
      rewrite Hm; cbn [andb orb]; [reflexivity|apply IH]. }
  destruct text as [|x text]; cbn [search].
  - apply orb_false_r.
  - now rewrite Hlater, orb_false_r.
Qed.

Lemma skip_written (fl : Flags) (n : string) :
  ignoreCase fl = true ->
  forall written prev rest,
    JS.toLowerCase written = JS.toLowerCase n ->
    exists p,
      Literal.skip fl (list_ascii_of_string (JS.toLowerCase n)) prev
        (list_ascii_of_string written ++ rest)
      = Some (p, rest).
Proof.
  intros Hi. induction n as [|c n IH]; intros written prev rest Hsame.
  - destruct written; [|discriminate]. cbn. eauto.
  - destruct written as [|x written]; [discriminate|].
    cbn [JS.toLowerCase] in Hsame. injection Hsame as Hx Hrest.
    cbn [JS.toLowerCase list_ascii_of_string app Literal.skip].
    rewrite (sameChar_lower fl c x Hi), Hx, Ascii.eqb_refl. now apply IH.
Qed.

Lemma skip_self (fl : Flags) (w : string) :
  forall prev rest,
    exists p,
      Literal.skip fl (list_ascii_of_string w) prev (list_ascii_of_string w ++ rest)
      = Some (p, rest).
Proof.
  induction w as [|c w IH]; intros prev rest; cbn; [eauto|].
  rewrite sameChar_refl. apply IH.
Qed.

(** With [i], the run of a lower-cased name is not read off a text whose
    lower case does not begin with it. *)
Lemma skip_other (fl : Flags) (n : string) :
  ignoreCase fl = true ->
  forall text prev,
    JSText.afterPrefix (JS.toLowerCase n) (JS.toLowerCase text) = None ->
    Literal.skip fl (list_ascii_of_string (JS.toLowerCase n)) prev
      (list_ascii_of_string text)
    = None.
Proof.
  intros Hi. induction n as [|c n IH]; intros text prev Hnone; [discriminate|].
  destruct text as [|x text]; [reflexivity|].
  cbn [JS.toLowerCase JSText.afterPrefix] in Hnone.
  cbn [JS.toLowerCase list_ascii_of_string Literal.skip].
  rewrite (sameChar_lower fl c x Hi).
  destruct (Ascii.eqb (JS.lowerChar c) (JS.lowerChar x)); [now apply IH|reflexivity].
Qed.

(** Without [i], it is not read off a text that does not begin with it as
    it is. *)
Lemma skip_exact (fl : Flags) (n : string) :
  ignoreCase fl = false ->
  forall text prev,
    JSText.afterPrefix n text = None ->
    Literal.skip fl (list_ascii_of_string n) prev (list_ascii_of_string text) = None.
Proof.
  intros Hi. induction n as [|c n IH]; intros text prev Hnone; [discriminate|].
  destruct text as [|x text]; [reflexivity|].
  cbn [JSText.afterPrefix] in Hnone. cbn [list_ascii_of_string Literal.skip].
  rewrite (sameChar_exact fl c x Hi).
  destruct (Ascii.eqb c x); [now apply IH|reflexivity].
Qed.

Lemma matcher_seq (fl : Flags) (a b : Node) (prev : option ascii)
  (text : list ascii) (k : Cont) :
  matcher fl (Seq a b) prev text k
  = matcher fl a prev text (fun p r => matcher fl b p r k).
Proof. reflexivity. Qed.

Lemma wordy_not_anchored (word : string) :
  Literal.wordy word = true -> Robot.beginsWithAnchor word = false.
Proof.
  destruct word as [|c word]; [reflexivity|].
  unfold Literal.wordy. cbn [list_ascii_of_string forallb Robot.beginsWithAnchor].
  intros H. apply andb_prop in H as [Hc _].
  destruct (Ascii.eqb c "^") eqn:E; [|reflexivity].
  apply Ascii.eqb_eq in E. now subst c.
Qed.

(** The word, after the name and what may stand between them. *)
Lemma matcher_afterName (fl : Flags) (word : string) (prev : option ascii)
  (between : list ascii) :
  between = [" "%char] \/ between = [":"%char; " "%char]
  \/ between = [","%char; " "%char] ->
  matcher fl (Literal.afterName word) prev
    (between ++ list_ascii_of_string word) (fun _ _ => true)
  = true.
Proof.
  set (tail := Seq (Star Literal.space)
                 (Seq (Group (Literal.chars (list_ascii_of_string word) Empty))
                    Empty)).
  assert (Hword : forall p,
    matcher fl tail p (" "%char :: list_ascii_of_string word) (fun _ _ => true)
    = true).
  { intros p. unfold tail. rewrite matcher_seq.
    apply star_step; [reflexivity|]. apply star_skip.
    rewrite matcher_seq. cbn [matcher]. rewrite matcher_chars.
    destruct (skip_self fl word (Some " "%char) []) as [q Hq].
    rewrite app_nil_r in Hq. now rewrite Hq. }
  assert (Hsep : forall c p rest,
    c = ":"%char \/ c = ","%char ->
    matcher fl (Class false [COne ":"%char; COne ","%char]) p (c :: rest)
      (fun p r => matcher fl tail p r (fun _ _ => true))
    = matcher fl tail (Some c) rest (fun _ _ => true)).
  { intros c p rest Hc. cbn [matcher].
    replace (inClass fl false [COne ":"%char; COne ","%char] c) with true;
      [reflexivity|].
    unfold inClass. cbn [existsb inItem xorb].
    destruct Hc as [-> | ->]; rewrite sameChar_refl; [reflexivity|].
    now rewrite orb_true_r. }
  unfold Literal.afterName. fold tail. rewrite matcher_seq.
  change (matcher fl (Alt ?a Empty) ?p ?t ?k)
    with (matcher fl a p t k || k p t).
  intros [->|[->| ->]]; cbn [app].
  - rewrite Hword. apply orb_true_r.
  - rewrite Hsep by now left. now rewrite Hword.
  - rewrite Hsep by now right. now rewrite Hword.
Qed.

(** The wrapped pattern, on a text that has the name, then the word. *)
Lemma matcher_wrapped (fl : Flags) (n word written : string)
  (before between : list ascii) :
  (forall prev rest,
     exists p,
       Literal.skip fl (list_ascii_of_string (JS.toLowerCase n)) prev
         (list_ascii_of_string written ++ rest)
       = Some (p, rest)) ->
  before = [] \/ before = ["@"%char] ->
  between = [" "%char] \/ between = [":"%char; " "%char]
  \/ between = [","%char; " "%char] ->
  matcher fl (Literal.wrappedNode n word) None
    (before ++ list_ascii_of_string written ++ between ++ list_ascii_of_string word)
    (fun _ _ => true)
  = true.
Proof.
  intros Hskip Hbefore Hbetween. unfold Literal.wrappedNode.
  rewrite matcher_seq.
  change (matcher fl AssertStart None ?t ?k) with (k None t). cbv beta.
  rewrite matcher_seq. apply star_skip. rewrite matcher_seq.
  assert (Hname : forall p,
    matcher fl
      (Literal.chars (list_ascii_of_string (JS.toLowerCase n))
         (Literal.afterName word))
      p (list_ascii_of_string written ++ between ++ list_ascii_of_string word)
      (fun _ _ => true)
    = true).
  { intros p. rewrite matcher_chars.
    destruct (Hskip p (between ++ list_ascii_of_string word)) as [q ->].
    now apply matcher_afterName. }
  destruct Hbefore as [-> | ->]; cbn [app].
  - apply star_skip, Hname.
  - apply star_step; [|apply star_skip, Hname].
    unfold inClass. cbn [existsb inItem xorb]. now rewrite sameChar_refl.
Qed.

(** The wrapped pattern, on a text that does not have the name at its
    start. *)
Lemma matcher_without_name (fl : Flags) (n word text : string) :
  Literal.unmarked text = true ->
  Literal.skip fl (list_ascii_of_string (JS.toLowerCase n)) None
    (list_ascii_of_string text) = None ->
  matcher fl (Literal.wrappedNode n word) None (list_ascii_of_string text)
    (fun _ _ => true)
  = false.
Proof.
  intros Hplain Hskip. unfold Literal.wrappedNode.
  rewrite matcher_seq.
  change (matcher fl AssertStart None ?t ?k) with (k None t). cbv beta.
  unfold Literal.space. rewrite matcher_seq, star_stuck.
  - rewrite matcher_seq, star_stuck.
    + now rewrite matcher_chars, Hskip.
    + destruct text as [|x text]; [exact I|].
      cbn [Literal.unmarked] in Hplain. apply andb_prop in Hplain as [_ Hat].
      cbn [list_ascii_of_string]. unfold inClass. cbn [existsb inItem xorb].
      rewrite sameChar_at, Ascii.eqb_sym.
      now destruct (Ascii.eqb x "@").
  - destruct text as [|x text]; [exact I|].
    cbn [Literal.unmarked] in Hplain. apply andb_prop in Hplain as [Hspace _].
    cbn [list_ascii_of_string]. unfold inClass. cbn [existsb inItem xorb].
    now destruct (JS.isWhiteSpace x).
Qed.

(** [test] on the wrapped pattern, with [i] and with [s]. *)
Lemma test_wrapped (n word flags text : string) (fl : Flags) :
  Literal.wordy word = true ->
  parseFlags flags (mkFlags false false false) = Some fl ->
  multiline fl = false ->
  test (JS.mkRegExp (Robot.wrapped n word) flags) text
  = Some (matcher fl (Literal.wrappedNode n word) None
            (list_ascii_of_string text) (fun _ _ => true)).
Proof.
  intros Hw Hfl Hm. unfold test. cbn [JS.flags JS.source].
  rewrite Hfl, (parse_wrapped n word Hw). unfold Literal.wrappedNode.
  now rewrite search_from_start.
Qed.

(** A name with a capital letter is not the beginning of itself in lower
    case. *)
Lemma lower_case_differs (n rest : string) :
  JS.toLowerCase n <> n ->
  JSText.afterPrefix (JS.toLowerCase n) (n +:+ rest) = None.
Proof.
  induction n as [|c n IH]; intros Hdiff; [now destruct Hdiff|].
  cbn [JS.toLowerCase] in *. rewrite HelpFacts.app_cons.
  cbn [JSText.afterPrefix].
  destruct (Ascii.eqb (JS.lowerChar c) c) eqn:E; [|reflexivity].
  apply Ascii.eqb_eq in E. apply IH. intros Hsame. apply Hdiff.
  now rewrite E, Hsame.
Qed.

Lemma unmarked_app (n rest : string) :
  n <> EmptyString -> Literal.unmarked n = true ->
  Literal.unmarked (n +:+ rest) = true.
Proof. destruct n; [congruence|]. now rewrite HelpFacts.app_cons. Qed.

End LiteralFacts.

Module RespondNames.
Section Names.
Context {L A W U R Msg : Type}.

Local Abbreviation St := (State L A W).

Variable accepts : string -> string -> bool.

Lemma respondPattern_word (word flags : string) (s : St) :
  Literal.wordy word = true ->
  JS.validFlags flags = true ->
  accepts (Robot.wrapped (name s) word)
    (Robot.modifiersFor (JS.mkRegExp word flags)) = true ->
  Robot.respondPattern (U:=U) (R:=R) (Msg:=Msg) accepts
    (PRegExp (JS.mkRegExp word flags)) s
  = (Return (PRegExp (JS.mkRegExp (Robot.wrapped (name s) word)
                        (Robot.modifiersFor (JS.mkRegExp word flags)))),
     s, []).
Proof.
  intros Hw Hfl Hok.
  rewrite (PatternFacts.respondPattern_regexp accepts (JS.mkRegExp word flags) s Hfl).
  cbn [JS.source]. rewrite Hok. unfold Robot.anchorWarnings. cbn [JS.source].
  now rewrite (LiteralFacts.wordy_not_anchored word Hw), PatternFacts.logged_nil.
Qed.

(** X16. Whatever characters the name of the bot holds, the pattern that
    [respond] builds for a word given as a [RegExp] without flags answers
    to the name, in any letter case, followed by the word: after an [@] and
    before a colon, before a comma, and on its own. *)
Theorem respond_answers_to_its_name (s : St) (word written : string) :
  word <> EmptyString ->
  Literal.wordy word = true ->
  JS.toLowerCase written = JS.toLowerCase (name s) ->
  accepts (Robot.wrapped (name s) word) "i" = true ->
  exists compiled,
    Robot.respondPattern (U:=U) (R:=R) (Msg:=Msg) accepts
      (PRegExp (JS.mkRegExp word EmptyString)) s
    = (Return (PRegExp compiled), s, [])
    /\ Regex.test compiled ("@" +:+ written +:+ ": " +:+ word) = Some true
    /\ Regex.test compiled (written +:+ ", " +:+ word) = Some true
    /\ Regex.test compiled (written +:+ " " +:+ word) = Some true.
Proof.
  intros _ Hw Hsame Hok. eexists. split.
  - now apply respondPattern_word.
  - change (Robot.modifiersFor (JS.mkRegExp word EmptyString)) with "i".
    rewrite !(LiteralFacts.test_wrapped _ _ "i" _ (Regex.mkFlags true false false))
      by (reflexivity || exact Hw).
    rewrite !LiteralFacts.list_ascii_app.
    assert (Hskip : forall prev rest,
      exists p,
        Literal.skip (Regex.mkFlags true false false)
          (list_ascii_of_string (JS.toLowerCase (name s))) prev
          (list_ascii_of_string written ++ rest)
        = Some (p, rest)).
    { intros prev rest. now apply LiteralFacts.skip_written. }
    repeat split; f_equal.
    + apply (LiteralFacts.matcher_wrapped _ _ _ _ ["@"%char] [":"%char; " "%char]);
        auto.
    + apply (LiteralFacts.matcher_wrapped _ _ _ _ [] [","%char; " "%char]); auto.
    + apply (LiteralFacts.matcher_wrapped _ _ _ _ [] [" "%char]); auto.
Qed.

(** X17. That pattern passes over every text that begins with neither
    white space nor [@] and does not begin with the name, letter case
    apart: a character of the name that a pattern would read as an
    operator stands for itself. *)
Theorem respond_passes_over_other_text (s : St) (word text : string) :
  word <> EmptyString ->
  Literal.wordy word = true ->
  Literal.unmarked text = true ->
  JSText.afterPrefix (JS.toLowerCase (name s)) (JS.toLowerCase text) = None ->
  accepts (Robot.wrapped (name s) word) "i" = true ->
  exists compiled,
    Robot.respondPattern (U:=U) (R:=R) (Msg:=Msg) accepts
      (PRegExp (JS.mkRegExp word EmptyString)) s
    = (Return (PRegExp compiled), s, [])
    /\ Regex.test compiled text = Some false.
Proof.
  intros _ Hw Hplain Hother Hok. eexists. split.
  - now apply respondPattern_word.
  - change (Robot.modifiersFor (JS.mkRegExp word EmptyString)) with "i".
    rewrite (LiteralFacts.test_wrapped _ _ "i" _ (Regex.mkFlags true false false))
      by (reflexivity || exact Hw).
    f_equal. apply LiteralFacts.matcher_without_name; [exact Hplain|].
    now apply LiteralFacts.skip_other.
Qed.

(** X18. A pattern that comes with flags keeps them, and no [i] is added:
    with [/word/s] the name is matched as lower-cased by [respondPattern],
    letter by letter, and a bot whose name has a capital letter does not
    answer to its name as it is written. *)
Theorem respond_with_flags_wants_lower_case (s : St) (word : string) :
  word <> EmptyString ->
  Literal.wordy word = true ->
  Literal.unmarked (name s) = true ->
  JS.toLowerCase (name s) <> name s ->
  accepts (Robot.wrapped (name s) word) "s" = true ->
  exists compiled,
    Robot.respondPattern (U:=U) (R:=R) (Msg:=Msg) accepts
      (PRegExp (JS.mkRegExp word "s")) s
    = (Return (PRegExp compiled), s, [])
    /\ Regex.test compiled (name s +:+ " " +:+ word) = Some false
    /\ Regex.test compiled (JS.toLowerCase (name s) +:+ " " +:+ word) = Some true.
Proof.
  intros _ Hw Hplain Hcapital Hok. eexists. split.
  - now apply respondPattern_word.
  - change (Robot.modifiersFor (JS.mkRegExp word "s")) with "s".
    rewrite !(LiteralFacts.test_wrapped _ _ "s" _ (Regex.mkFlags false false true))
      by (reflexivity || exact Hw).
    split; f_equal.
    + apply LiteralFacts.matcher_without_name.
      * apply LiteralFacts.unmarked_app; [|exact Hplain].
        intros Hempty. apply Hcapital. now rewrite Hempty.
      * apply LiteralFacts.skip_exact; [reflexivity|].
        now apply LiteralFacts.lower_case_differs.
    + rewrite !LiteralFacts.list_ascii_app.
      apply (LiteralFacts.matcher_wrapped _ _ _ _ [] [" "%char]); auto.
      intros prev rest. apply LiteralFacts.skip_self.
Qed.

End Names.
End RespondNames.

(** A bot whose name holds operators of the pattern language. *)

Lemma respond_answers_to_its_name_witness :
  "ping" <> EmptyString
  /\ Literal.wordy "ping" = true
  /\ JS.toLowerCase "c++bot" = JS.toLowerCase (name (Samples.named "C++Bot"))
  /\ Demo.accepts (Robot.wrapped (name (Samples.named "C++Bot")) "ping") "i" = true
  /\ exists compiled,
       Robot.respondPattern (U:=string) (R:=string) (Msg:=Demo.Inbound)
         Demo.accepts (PRegExp (JS.mkRegExp "ping" EmptyString))
         (Samples.named "C++Bot")
       = (Return (PRegExp compiled), Samples.named "C++Bot", [])
       /\ Regex.test compiled ("@" +:+ "c++bot" +:+ ": " +:+ "ping") = Some true
       /\ Regex.test compiled ("c++bot" +:+ ", " +:+ "ping") = Some true
       /\ Regex.test compiled ("c++bot" +:+ " " +:+ "ping") = Some true.
Proof.
  assert (Hne : "ping" <> EmptyString) by discriminate.
  assert (Hw : Literal.wordy "ping" = true) by reflexivity.
  assert (Hsame : JS.toLowerCase "c++bot"
                  = JS.toLowerCase (name (Samples.named "C++Bot")))
    by reflexivity.
  assert (Hok : Demo.accepts
                  (Robot.wrapped (name (Samples.named "C++Bot")) "ping") "i"
                = true) by (vm_compute; reflexivity).
  split; [exact Hne|]. split; [exact Hw|]. split; [exact Hsame|].
  split; [exact Hok|].
  exact (RespondNames.respond_answers_to_its_name (U:=string) (R:=string)
           (Msg:=Demo.Inbound) Demo.accepts (Samples.named "C++Bot") "ping"
           "c++bot" Hne Hw Hsame Hok).
Defined.

Lemma respond_passes_over_other_text_witness :
  "ping" <> EmptyString
  /\ Literal.wordy "ping" = true
  /\ Literal.unmarked "axb ping" = true
  /\ JSText.afterPrefix (JS.toLowerCase (name (Samples.named "a.b")))
       (JS.toLowerCase "axb ping") = None
  /\ Demo.accepts (Robot.wrapped (name (Samples.named "a.b")) "ping") "i" = true
  /\ exists compiled,
       Robot.respondPattern (U:=string) (R:=string) (Msg:=Demo.Inbound)
         Demo.accepts (PRegExp (JS.mkRegExp "ping" EmptyString))
         (Samples.named "a.b")
       = (Return (PRegExp compiled), Samples.named "a.b", [])
       /\ Regex.test compiled "axb ping" = Some false.
Proof.
  assert (Hne : "ping" <> EmptyString) by discriminate.
  assert (Hw : Literal.wordy "ping" = true) by reflexivity.
  assert (Hplain : Literal.unmarked "axb ping" = true) by reflexivity.
  assert (Hother : JSText.afterPrefix
                     (JS.toLowerCase (name (Samples.named "a.b")))
                     (JS.toLowerCase "axb ping") = None) by reflexivity.
  assert (Hok : Demo.accepts (Robot.wrapped (name (Samples.named "a.b")) "ping") "i"
                = true) by (vm_compute; reflexivity).
  split; [exact Hne|]. split; [exact Hw|]. split; [exact Hplain|].
  split; [exact Hother|]. split; [exact Hok|].
  exact (RespondNames.respond_passes_over_other_text (U:=string) (R:=string)
           (Msg:=Demo.Inbound) Demo.accepts (Samples.named "a.b") "ping"
           "axb ping" Hne Hw Hplain Hother Hok).
Defined.

Lemma respond_with_flags_wants_lower_case_witness :
  "ping" <> EmptyString
  /\ Literal.wordy "ping" = true
  /\ Literal.unmarked (name (Samples.named "Val")) = true
  /\ JS.toLowerCase (name (Samples.named "Val")) <> name (Samples.named "Val")
  /\ Demo.accepts (Robot.wrapped (name (Samples.named "Val")) "ping") "s" = true
  /\ exists compiled,
       Robot.respondPattern (U:=string) (R:=string) (Msg:=Demo.Inbound)
         Demo.accepts (PRegExp (JS.mkRegExp "ping" "s")) (Samples.named "Val")
       = (Return (PRegExp compiled), Samples.named "Val", [])
       /\ Regex.test compiled (name (Samples.named "Val") +:+ " " +:+ "ping")
          = Some false
       /\ Regex.test compiled
            (JS.toLowerCase (name (Samples.named "Val")) +:+ " " +:+ "ping")
          = Some true.
Proof.
  assert (Hne : "ping" <> EmptyString) by discriminate.
  assert (Hw : Literal.wordy "ping" = true) by reflexivity.
  assert (Hplain : Literal.unmarked (name (Samples.named "Val")) = true)
    by reflexivity.
  assert (Hcapital : JS.toLowerCase (name (Samples.named "Val"))
                     <> name (Samples.named "Val")) by discriminate.
  assert (Hok : Demo.accepts (Robot.wrapped (name (Samples.named "Val")) "ping") "s"
                = true) by (vm_compute; reflexivity).
  split; [exact Hne|]. split; [exact Hw|]. split; [exact Hplain|].
  split; [exact Hcapital|]. split; [exact Hok|].
  exact (RespondNames.respond_with_flags_wants_lower_case (U:=string) (R:=string)
           (Msg:=Demo.Inbound) Demo.accepts (Samples.named "Val") "ping"
           Hne Hw Hplain Hcapital Hok).
Defined.
